(** * vsinder-api: the real-time core of [src/index.ts]

    A shallow embedding of the request handlers of [src/index.ts] that keep
    the like/match records, the conversation read flags, the WebSocket
    registry and the push-notification queue consistent, together with the
    connection-upgrade authenticator and the declared rate-limit quotas.

    Tables are lists of rows in insertion order, the [wsUsers] object and the
    [user] table are finite maps keyed by user id, and every handler is a
    function from the state before the request to a response and the state
    after it. *)

From Stdlib Require Import ZArith String List Lia Sorted Permutation.
From stdpp Require Import gmap strings list fin_maps.

Open Scope string_scope.
Open Scope list_scope.
Open Scope Z_scope.

(** ** JavaScript values used by the handlers *)

Definition UserId := string.

(** A thrown [Error]; only its [message] is inspected by the code. *)
Record Error := mkError { message : string }.

(** [haystack.includes(needle)] *)
Definition includes (needle haystack : string) : bool :=
  match String.index 0 needle haystack with
  | Some _ => true
  | None => false
  end.

(** [text.slice(0, n)] on a string: its first [n] characters. *)
Definition slice0 (n : nat) (text : string) : string := String.substring 0 n text.

(** A value of the parsed query string ([url.parse(request.url, true).query]):
    absent, one string, or a repeated parameter. *)
Inductive QueryValue :=
| QUndefined
| QString (s : string)
| QArray (l : list string).

(** [!v] *)
Definition falsy (v : QueryValue) : bool :=
  match v with
  | QUndefined => true
  | QString s => bool_decide (s = "")
  | QArray _ => false
  end.

(** [typeof v === "string"] *)
Definition typeof_string (v : QueryValue) : bool :=
  match v with
  | QString _ => true
  | _ => false
  end.

(** ** Canonical pair order *)

Module Order.
Record t := mk { userId1 : UserId; userId2 : UserId }.
End Order.

(** Modelled from the spec: [getUserIdOrder] is imported from [./utils], which
    this development has no source for.  The spec (section 3) stores a pair
    canonically with [userId1 < userId2] under a total order on identifiers;
    the order used here is the comparison of the two id strings. *)
Definition getUserIdOrder (u1 u2 : UserId) : Order.t :=
  if String.ltb u1 u2 then Order.mk u1 u2 else Order.mk u2 u1.

(** ** Persistent tables *)

Module View.
Record t := mk { viewerId : UserId; targetId : UserId; liked : bool }.

Definition same_pair (a b : t) : bool :=
  bool_decide (viewerId a = viewerId b) && bool_decide (targetId a = targetId b).

(** [View.findOne({viewerId, targetId, liked})]: the first row with these
    three columns. *)
Definition findOne (tbl : list t) (viewer target : UserId) (l : bool) : option t :=
  List.find (fun v => bool_decide (viewerId v = viewer)
                      && bool_decide (targetId v = target)
                      && Bool.eqb (liked v) l) tbl.

(** The message of the error raised by the store's uniqueness constraint. *)
Definition duplicate_key : Error :=
  mkError "duplicate key value violates unique constraint".

(** Modelled from the spec: the uniqueness constraint behind [View.insert(row)].
    The entity declaration ([./entities/View]) is not among the embedded
    sources; per the spec (section 3) a View is unique per (viewer, target)
    and a duplicate insert fails, which is what the handler's test for
    "duplicate key" relies on.  [fault] is a failure of the store itself on
    this statement (anything but the constraint), in which case nothing is
    inserted either. *)
Definition insert (fault : option Error) (tbl : list t) (row : t) : Error + list t :=
  match fault with
  | Some e => inl e
  | None =>
      if existsb (same_pair row) tbl then inl duplicate_key
      else inr (tbl ++ [row])
  end.
End View.

Module Match.
Record t := mk {
  userId1 : UserId;
  userId2 : UserId;
  read1 : bool;
  read2 : bool;
  unmatched : bool
}.

(** Column defaults of a fresh row; they are declared with the entity
    ([./entities/Match]), which is not among the embedded sources. *)
Record Defaults := mkDefaults {
  default_read1 : bool;
  default_read2 : bool;
  default_unmatched : bool
}.

Definition is_pair (o : Order.t) (m : t) : bool :=
  bool_decide (userId1 m = Order.userId1 o)
  && bool_decide (userId2 m = Order.userId2 o).

(** [Match.insert(order)] *)
Definition insert (d : Defaults) (tbl : list t) (o : Order.t) : list t :=
  tbl ++ [mk (Order.userId1 o) (Order.userId2 o)
             (default_read1 d) (default_read2 d) (default_unmatched d)].

(** [Match.delete(order)] *)
Definition delete (tbl : list t) (o : Order.t) : list t :=
  List.filter (fun m => negb (is_pair o m)) tbl.

(** An UPDATE: every row selected by [crit] is rewritten by [set]. *)
Definition update (tbl : list t) (crit : t -> bool) (set : t -> t) : list t :=
  List.map (fun m => if crit m then set m else m) tbl.

Definition set_read1 (b : bool) (m : t) : t :=
  mk (userId1 m) (userId2 m) b (read2 m) (unmatched m).
Definition set_read2 (b : bool) (m : t) : t :=
  mk (userId1 m) (userId2 m) (read1 m) b (unmatched m).
End Match.

Module Message.
Record t := mk {
  senderId : UserId;
  recipientId : UserId;
  text : string;
  createdAt : Z  (* milliseconds since the epoch *)
}.
End Message.

Module User.
Record t := mk { tokenVersion : Z; numLikes : Z }.
End User.

(** ** Live connections, delivered frames and notification jobs *)

(** A [WebSocket] object is identified by a handle. *)
Definition WebSocket := nat.

(** The value stored per user in [wsUsers]. *)
Record WsEntry := mkWsEntry { ws : WebSocket; openChatUserId : option UserId }.

(** Server-to-client frames (the argument of [wsSend]). *)
Inductive WsEvent :=
| NewMessage (m : Message.t)
| NewMatch (ids : Order.t)
| Unmatch (userId : UserId)
| NewLike.

(** The job handed to [queuePushNotifToSend]. *)
Inductive PushType := PushMessage | PushMatch.

Record PushJob := mkPushJob {
  idToSendTo : UserId;
  otherId : UserId;
  type : PushType;
  text : option string
}.

(** ** The state of the server *)

Record State := mkState {
  views : list View.t;
  matches : list Match.t;
  messages : list Message.t;
  users : gmap UserId User.t;
  wsUsers : gmap UserId WsEntry;
  sent : list (WebSocket * WsEvent);  (* frames passed to [ws.send], oldest first *)
  pushQueue : list PushJob            (* jobs queued, oldest first *)
}.

Definition set_views (v : list View.t) (s : State) : State :=
  mkState v (matches s) (messages s) (users s) (wsUsers s) (sent s) (pushQueue s).
Definition set_matches (m : list Match.t) (s : State) : State :=
  mkState (views s) m (messages s) (users s) (wsUsers s) (sent s) (pushQueue s).
Definition set_messages (m : list Message.t) (s : State) : State :=
  mkState (views s) (matches s) m (users s) (wsUsers s) (sent s) (pushQueue s).
Definition set_users (u : gmap UserId User.t) (s : State) : State :=
  mkState (views s) (matches s) (messages s) u (wsUsers s) (sent s) (pushQueue s).
Definition set_wsUsers (w : gmap UserId WsEntry) (s : State) : State :=
  mkState (views s) (matches s) (messages s) (users s) w (sent s) (pushQueue s).
Definition set_sent (l : list (WebSocket * WsEvent)) (s : State) : State :=
  mkState (views s) (matches s) (messages s) (users s) (wsUsers s) l (pushQueue s).
Definition set_pushQueue (q : list PushJob) (s : State) : State :=
  mkState (views s) (matches s) (messages s) (users s) (wsUsers s) (sent s) q.

(** The server starts with empty tables, no connection, and whatever
    accounts the login routes created. *)
Definition initial (accounts : gmap UserId User.t) : State :=
  mkState [] [] [] accounts ∅ [] [].

(** [wsSend(key, v)]: a frame for a user without an entry is dropped. *)
Definition wsSend (key : UserId) (v : WsEvent) (s : State) : State :=
  match wsUsers s !! key with
  | Some e => set_sent (sent s ++ [(ws e, v)]) s
  | None => s
  end.

(** [queuePushNotifToSend(job)] *)
Definition queuePushNotifToSend (job : PushJob) (s : State) : State :=
  set_pushQueue (pushQueue s ++ [job]) s.

(** [key in wsUsers] *)
Definition connected (key : UserId) (s : State) : bool :=
  bool_decide (is_Some (wsUsers s !! key)).

(** What a handler answers. *)
Inductive Response :=
| ViewJson (match_ ok : bool)                       (* [res.json({match, ok})] *)
| MessageSent (m : Message.t)                       (* [res.send({message})] *)
| MessagesPage (page : list Message.t) (hasMore : bool)
| OkTrue                                            (* [res.send({ok: true})] *)
| Thrown (e : Error)                                (* the handler rejects *)
| Unauthorized                                      (* [bad()]: 401, socket destroyed *)
| Upgraded (userId : UserId)                        (* [good(userId)] ran the upgrade *)
| NoReply.                                          (* socket events answer nothing *)

(** ** Credentials *)

Module Token.
(** The payload of a verified credential ([data]); access credentials embed
    the subject id only, refresh credentials the [tokenVersion] as well. *)
Record t := mk { userId : UserId; tokenVersion : option Z }.
End Token.

Inductive UpgradeOutcome :=
| Good (userId : UserId)   (* [good(userId)] *)
| Bad.                     (* [bad()] *)

(** ** Conversation pages *)

(** [ORDER BY "createdAt" DESC].  The query leaves the order of rows with
    equal timestamps open; this sort is one such order (equal timestamps keep
    the order of the table).  The statements about pages hold for every
    newest-first order of the selected rows, or assume distinct timestamps. *)
Fixpoint insert_desc (m : Message.t) (l : list Message.t) : list Message.t :=
  match l with
  | [] => [m]
  | x :: r =>
      if Message.createdAt x <=? Message.createdAt m then m :: l
      else x :: insert_desc m r
  end.

Definition orderBy_createdAt_DESC (l : list Message.t) : list Message.t :=
  fold_right insert_desc [] l.

(** The [where] clause of the conversation query: the rows exchanged between
    [u] (the path parameter) and [me]. *)
Definition between (u me : UserId) (m : Message.t) : bool :=
  (bool_decide (Message.recipientId m = u) && bool_decide (Message.senderId m = me))
  || (bool_decide (Message.recipientId m = me) && bool_decide (Message.senderId m = u)).

(** Truthiness of the parsed cursor: [undefined] and [0] are falsy.  The
    cursor comes from [parseInt], so [Number.isInteger(cursor)] adds nothing
    once it is truthy. *)
Definition truthy (cursor : option Z) : bool :=
  match cursor with
  | Some c => negb (c =? 0)
  | None => false
  end.

(** [new Date(t)]: a time value within 8.64e15 ms of the epoch is a date, any
    other gives an Invalid Date. *)
Definition Date_valid (t : Z) : bool :=
  (-8640000000000000 <=? t) && (t <=? 8640000000000000).

(** Whether [await qb.getMany()] resolves: the parameter [new Date(cursor)],
    added to the query for a truthy cursor, has to be a date. *)
Definition query_resolves (cursor : option Z) : bool :=
  match cursor with
  | Some c => if truthy cursor then Date_valid c else true
  | None => true
  end.

(** The error of a query that was given an Invalid Date.  The text is the
    store's; the statements use only that the query fails. *)
Definition invalid_date : Error :=
  mkError "invalid input syntax for type timestamp".

(** The rows selected by the query builder, before [take(21)]. *)
Definition selected (u me : UserId) (cursor : option Z) (tbl : list Message.t)
  : list Message.t :=
  List.filter
    (fun m =>
       between u me m
       && match cursor with
          | Some c => if truthy cursor then Message.createdAt m <? c else true
          | None => true
          end)
    tbl.

(** [qb.getMany()] *)
Definition getMany (u me : UserId) (cursor : option Z) (tbl : list Message.t)
  : list Message.t :=
  firstn 21 (orderBy_createdAt_DESC (selected u me cursor tbl)).

(** ** Rate-limit quotas *)

Definition SECONDS_IN_A_DAY : Z := 86400.

Module RateLimit.

(** The options object of a limiter; an absent key is [None]. *)
Record Opts := mkOpts {
  execEvenly : option bool;
  blockDuration : option Z;
  points : option Z;
  duration : option Z;
  keyPrefix : option string
}.

Definition override {A} (base over : option A) : option A :=
  match over with
  | Some x => Some x
  | None => base
  end.

(** [{...base, ...over}]: a key of [over] wins over the same key of [base]. *)
Definition spread (base over : Opts) : Opts :=
  mkOpts (override (execEvenly base) (execEvenly over))
         (override (blockDuration base) (blockDuration over))
         (override (points base) (points over))
         (override (duration base) (duration over))
         (override (keyPrefix base) (keyPrefix over)).

(** A constructed limiter.  Every quota of the server declares its points,
    its window and its key prefix and inherits or declares a block duration;
    the fall-back values stand for keys left out and are never reached. *)
Record Limiter := mkLimiter {
  l_points : Z;
  l_duration : Z;       (* the window, in seconds *)
  l_blockDuration : Z;  (* in seconds; 0: no block *)
  l_keyPrefix : string
}.

Definition RateLimiterRedis (o : Opts) : Limiter :=
  mkLimiter (default 4 (points o)) (default 1 (duration o))
            (default 0 (blockDuration o)) (default "rlflx" (keyPrefix o)).

(** One counter of the shared store. *)
Record Counter := mkCounter { consumed : Z; expiresAt : Z }.

(** Modelled from the spec: the limiter engine behind [rateLimitMiddleware]
    ([./rateLimitMiddleware] and the rate-limiter library are not among the
    embedded sources).  Per the spec (sections 4.3 and 8) an attempt of
    [(actor, actionKey)] consumes one point of a fixed capacity over a fixed
    window; once the capacity is exceeded attempts are rejected until the
    window or the declared block duration elapses, the block starting at the
    first violation; counters are namespaced by action key and actor.
    The result is whether the attempt is admitted, and the store after it. *)
Definition consume (l : Limiter) (actor : UserId) (now : Z)
  (store : gmap (string * UserId) Counter) : bool * gmap (string * UserId) Counter :=
  let key := (l_keyPrefix l, actor) in
  let c :=
    match store !! key with
    | Some c =>
        if now <? expiresAt c then mkCounter (consumed c + 1) (expiresAt c)
        else mkCounter 1 (now + l_duration l)
    | None => mkCounter 1 (now + l_duration l)
    end in
  if l_points l <? consumed c then
    let c :=
      if (0 <? l_blockDuration l) && (consumed c <=? l_points l + 1)
      then mkCounter (consumed c) (now + l_blockDuration l)
      else c in
    (false, <[key := c]> store)
  else (true, <[key := c]> store).

End RateLimit.

(** [defaultRateLimitOpts] (the store client is left out). *)
Definition defaultRateLimitOpts : RateLimit.Opts :=
  RateLimit.mkOpts (Some false) (Some SECONDS_IN_A_DAY) None None None.

(** The options of a route that only sets points, window and prefix. *)
Definition route_opts (pts : Z) (prefix : string) : RateLimit.Opts :=
  RateLimit.spread defaultRateLimitOpts
    (RateLimit.mkOpts None None (Some pts) (Some SECONDS_IN_A_DAY) (Some prefix)).

(** The options of POST /view, which also set [blockDuration: 0]. *)
Definition view_opts : RateLimit.Opts :=
  RateLimit.spread defaultRateLimitOpts
    (RateLimit.mkOpts None (Some 0) (Some 100) (Some SECONDS_IN_A_DAY) (Some "rl/view/")).

Definition view_limiter : RateLimit.Limiter := RateLimit.RateLimiterRedis view_opts.

(** The limiters of the other rate-limited routes, in source order. *)
Definition other_limiters : list RateLimit.Limiter :=
  map RateLimit.RateLimiterRedis
    [ route_opts 100 "rl/user/imgs/";
      route_opts 20 "rl/user/push-token/";
      route_opts 100 "rl/user/";
      route_opts 500 "rl/feed/";
      route_opts 500 "rl/matches/";
      route_opts 100 "rl/unmatch/";
      route_opts 100 "rl/report/";
      route_opts 1000 "rl/message/";
      route_opts 200 "rl/user/:id" ].

(** *** GET /feed: the positional parameters of the query *)

Module Profile.
(** The columns of the requesting user that the feed query is built from. *)
Record t := mk {
  goal : string;
  global : bool;
  gender : string;
  genderToShow : string;
  location : string;
  ageRangeMin : Z;
  ageRangeMax : Z
}.
End Profile.

(** A value bound to a placeholder. *)
Inductive SqlParam :=
| PText (s : string)
| PNum (z : Z).

(** What a placeholder of the feed query is compared with, in the order of
    the query text. *)
Inductive Slot :=
| ViewerOfMyViews        (* [v."viewerId" = $1] *)
| TargetOfLikesOfMe      (* [$2 = v2."targetId"] *)
| NotMyself              (* [u.id != $3] *)
| TheirGenderToShow      (* ["genderToShow" = $n] *)
| TheirAgeAtLeast        (* [$n <= date_part('year', age(birthday))] *)
| TheirAgeAtMost         (* [$n >= date_part('year', age(birthday))] *)
| TheirAgeRangeMin       (* ["ageRangeMin" <= $n] *)
| TheirAgeRangeMax       (* ["ageRangeMax" >= $n] *)
| TheirLocation          (* [location = $n] *)
| TheirGender            (* [gender = $n] *)
| RankSameLocationLiked  (* [u.location = $4 and v2 is not null] *)
| RankSameLocation.      (* [u.location = $5] *)

(** The placeholders [$n] of the query text with what they stand against:
    the joins and [u.id != $3], then [loveWhere] when the goal is love
    ([friendWhere] has none), then the [order by] cases of a global love
    search. *)
Definition feed_placeholders (user : Profile.t) : list (nat * Slot) :=
  let paramNum := if Profile.global user then 6%nat else 4%nat in
  [(1%nat, ViewerOfMyViews); (2%nat, TargetOfLikesOfMe); (3%nat, NotMyself)]
  ++ (if bool_decide (Profile.goal user = "love") then
        [(paramNum, TheirGenderToShow);
         ((paramNum + 1)%nat, TheirAgeAtLeast);
         ((paramNum + 2)%nat, TheirAgeAtMost);
         ((paramNum + 3)%nat, TheirAgeRangeMin);
         ((paramNum + 4)%nat, TheirAgeRangeMax);
         ((paramNum + 5)%nat, TheirLocation)]
        ++ (if bool_decide (Profile.genderToShow user <> "everyone")
            then [((paramNum + 6)%nat, TheirGender)] else [])
      else [])
  ++ (if bool_decide (Profile.goal user = "love") && Profile.global user
      then [(4%nat, RankSameLocationLiked); (5%nat, RankSameLocation)] else []).

(** The parameter array handed to [query]: [loveParams] or [friendParams].
    [myAge] is [getAge(new Date(user.birthday))]. *)
Definition feed_params (me : UserId) (user : Profile.t) (myAge : Z) : list SqlParam :=
  let loveParams :=
    [PText me; PText me; PText me]
    ++ (if Profile.global user
        then [PText (Profile.location user); PText (Profile.location user)] else [])
    ++ [PText (Profile.gender user);
        PNum (Profile.ageRangeMin user);
        PNum (Profile.ageRangeMax user);
        PNum myAge;
        PNum myAge;
        PText (Profile.location user)]
    ++ (if bool_decide (Profile.genderToShow user <> "everyone")
        then [PText (Profile.genderToShow user)] else []) in
  let friendParams := [PText me; PText me; PText me] in
  if bool_decide (Profile.goal user = "love") then loveParams else friendParams.

(** The value each comparison of the query ends up with. *)
Definition slot_value (me : UserId) (user : Profile.t) (myAge : Z) (sl : Slot)
  : SqlParam :=
  match sl with
  | ViewerOfMyViews | TargetOfLikesOfMe | NotMyself => PText me
  | TheirGenderToShow => PText (Profile.gender user)
  | TheirAgeAtLeast => PNum (Profile.ageRangeMin user)
  | TheirAgeAtMost => PNum (Profile.ageRangeMax user)
  | TheirAgeRangeMin | TheirAgeRangeMax => PNum myAge
  | TheirLocation | RankSameLocationLiked | RankSameLocation =>
      PText (Profile.location user)
  | TheirGender => PText (Profile.genderToShow user)
  end.


(** *** PUT /user: the body as it is rewritten before validation *)

Module UserBody.
(** The keys of [req.body] that the handler reads or overwrites; an absent
    key is [None]. *)
Record t := mk {
  goal : option string;
  location : option string;
  ageRangeMin : option Z;
  ageRangeMax : option Z
}.
End UserBody.

(** The two [if]s at the head of the PUT /user handler: a friendship goal
    fixes the age range and the location, and a falsy location (absent or
    empty) becomes "online". *)
Definition normalise_user_body (b : UserBody.t) : UserBody.t :=
  let b :=
    if bool_decide (UserBody.goal b = Some "friendship")
    then UserBody.mk (UserBody.goal b) (Some "online") (Some 18) (Some 33)
    else b in
  match UserBody.location b with
  | Some l =>
      if bool_decide (l = "")
      then UserBody.mk (UserBody.goal b) (Some "online")
                       (UserBody.ageRangeMin b) (UserBody.ageRangeMax b)
      else b
  | None =>
      UserBody.mk (UserBody.goal b) (Some "online")
                  (UserBody.ageRangeMin b) (UserBody.ageRangeMax b)
  end.


(** ** Sample data for the worked instances *)

Definition sample_defaults : Match.Defaults := Match.mkDefaults false false false.

(** A toy verifier: one refresh credential, of "bob" at token version 3, and
    one access credential, of "alice". *)
Definition sample_verify (token secret : string) : option Token.t :=
  if bool_decide (token = "refresh-bob-v3") && bool_decide (secret = "refresh-secret")
  then Some (Token.mk "bob" (Some 3))
  else if bool_decide (token = "access-alice") && bool_decide (secret = "access-secret")
  then Some (Token.mk "alice" None)
  else None.

Definition sample_accounts : gmap UserId User.t :=
  <["alice" := User.mk 1 0]> (<["bob" := User.mk 3 0]> ∅).

Section Server.

(** Column defaults of the [match] table. *)
Variable defaults : Match.Defaults.

(** [verify(token, secret)] of jsonwebtoken: the payload when the signature
    and the expiry check out, [None] when it throws. *)
Variable verify : string -> string -> option Token.t.

(** [process.env.ACCESS_TOKEN_SECRET] and [process.env.REFRESH_TOKEN_SECRET] *)
Variable ACCESS_TOKEN_SECRET : string.
Variable REFRESH_TOKEN_SECRET : string.

(** *** POST /view *)

Definition post_view (fault : option Error) (me userId : UserId) (liked : bool)
  (s : State) : Response * State :=
  (* Promise.all([liked ? View.findOne(...) : undefined, View.insert(...)]):
     the lookup is issued first and reads the table as it is before the insert *)
  let _fav := if liked then View.findOne (views s) userId me true else None in
  match View.insert fault (views s) (View.mk me userId liked) with
  | inl err =>
      if includes "duplicate key" (message err)
      then (ViewJson false false, s)
      else (Thrown err, s)
  | inr views' =>
      let s := set_views views' s in
      let fav := _fav in
      let match_ := bool_decide (is_Some fav) in
      let s :=
        if match_
        then set_matches (Match.insert defaults (matches s) (getUserIdOrder userId me)) s
        else s in
      (* res.json({match, ok: true}) *)
      let s :=
        if match_ then
          let ids := getUserIdOrder userId me in
          let s := wsSend userId (NewMatch ids) s in
          let s := wsSend me (NewMatch ids) s in
          if negb (connected userId s)
          then queuePushNotifToSend (mkPushJob userId me PushMatch None) s
          else s
        else s in
      let s :=
        if liked then
          let s :=
            set_users
              (alter (fun u => User.mk (User.tokenVersion u) (User.numLikes u + 1))
                     userId (users s)) s in
          wsSend userId NewLike s
        else s in
      (ViewJson match_ true, s)
  end.

(** *** POST /message *)

(** [wsUsers[key].openChatUserId] *)
Definition focusedPeer (key : UserId) (s : State) : option UserId :=
  match wsUsers s !! key with
  | Some e => openChatUserId e
  | None => None
  end.

Definition post_message (me recipientId : UserId) (text : string) (now : Z)
  (s : State) : Response * State :=
  (* Message.create({...req.body, senderId: req.userId}).save() *)
  let m := Message.mk me recipientId text now in
  let s := set_messages (messages s ++ [m]) s in
  let s := wsSend (Message.recipientId m) (NewMessage m) s in
  (* res.send({message: m}) *)
  let s :=
    if negb (connected (Message.recipientId m) s)
       || negb (bool_decide (focusedPeer (Message.recipientId m) s = Some me))
    then
      let userIdOrder := getUserIdOrder me (Message.recipientId m) in
      set_matches
        (Match.update (matches s)
           (fun r => Match.is_pair userIdOrder r && Bool.eqb (Match.unmatched r) false)
           (if bool_decide (Order.userId1 userIdOrder = Message.recipientId m)
            then Match.set_read1 false
            else Match.set_read2 false))
        s
    else s in
  let s :=
    if negb (connected (Message.recipientId m) s)
    then queuePushNotifToSend
           (mkPushJob (Message.recipientId m) me PushMessage
                      (Some (slice0 100 (Message.text m)))) s
    else s in
  (MessageSent m, s).

(** *** GET /messages/:userId/:cursor? *)

Definition get_messages (me userId : UserId) (cursor : option Z)
  (s : State) : Response * State :=
  (* await qb.getMany(): a failed query rejects the handler before it
     answers, moves the focus or touches the read flag *)
  if negb (query_resolves cursor) then (Thrown invalid_date, s) else
  let msgs := getMany userId me cursor (messages s) in
  let reply := MessagesPage (firstn 20 msgs) (Nat.eqb (length msgs) 21) in
  let s :=
    match wsUsers s !! me with
    | Some e => set_wsUsers (<[me := mkWsEntry (ws e) (Some userId)]> (wsUsers s)) s
    | None => s
    end in
  let s :=
    if negb (truthy cursor) then
      let userIdOrder := getUserIdOrder userId me in
      set_matches
        (Match.update (matches s)
           (Match.is_pair userIdOrder)
           (if bool_decide (Order.userId1 userIdOrder = me)
            then Match.set_read1 true
            else Match.set_read2 true))
        s
    else s in
  (reply, s).

(** *** POST /unmatch *)

Definition post_unmatch (me userId : UserId) (s : State) : Response * State :=
  let s := set_matches (Match.delete (matches s) (getUserIdOrder me userId)) s in
  let s := wsSend userId (Unmatch me) s in
  (OkTrue, s).

(** *** POST /report

    The report row itself and the Slack call come after the answer and touch
    nothing the other handlers read. *)

Definition post_report (fault : option Error) (me userId : UserId)
  (unmatchOrReject : string) (s : State) : Response * State :=
  let s :=
    if bool_decide (unmatchOrReject = "unmatch") then
      let s := set_matches (Match.delete (matches s) (getUserIdOrder me userId)) s in
      wsSend userId (Unmatch me) s
    else s in
  if bool_decide (unmatchOrReject = "reject") then
    match View.insert fault (views s) (View.mk me userId false) with
    | inl err => (Thrown err, s)
    | inr views' => (OkTrue, set_views views' s)
    end
  else (OkTrue, s).

(** *** WebSocket events *)

(** [wss.on("connection", (ws, userId) => ...)]: a falsy id terminates the
    socket, any other id takes over the registry entry. *)
Definition on_connection (w : WebSocket) (userId : UserId) (s : State) : State :=
  if bool_decide (userId = "") then s
  else set_wsUsers (<[userId := mkWsEntry w None]> (wsUsers s)) s.

(** [ws.on("message", ...)] of the socket opened for [userId]. *)
Definition on_message (userId : UserId) (type_ : string)
  (peer : option UserId) (s : State) : State :=
  if bool_decide (type_ = "message-open") then
    match wsUsers s !! userId with
    | Some e => set_wsUsers (<[userId := mkWsEntry (ws e) peer]> (wsUsers s)) s
    | None => s
    end
  else s.

(** [ws.on("close", ...)] of the socket opened for [userId]. *)
Definition on_close (userId : UserId) (s : State) : State :=
  set_wsUsers (delete userId (wsUsers s)) s.

(** *** The upgrade handler *)

Definition upgrade (accessToken refreshToken : QueryValue)
  (accounts : gmap UserId User.t) : UpgradeOutcome :=
  if falsy accessToken || falsy refreshToken
     || negb (typeof_string accessToken) || negb (typeof_string refreshToken)
  then Bad
  else
    match accessToken, refreshToken with
    | QString a, QString r =>
        match verify a ACCESS_TOKEN_SECRET with
        | Some data => Good (Token.userId data)
        | None =>
            match verify r REFRESH_TOKEN_SECRET with
            | Some data =>
                (* User.findOne(data.userId) *)
                match accounts !! Token.userId data with
                | None => Bad
                | Some user =>
                    if bool_decide (Some (User.tokenVersion user) ≠ Token.tokenVersion data)
                    then Bad
                    else Good (Token.userId data)
                end
            | None => Bad
            end
        end
    | _, _ => Bad
    end.

(** [server.on("upgrade", ...)] for a request whose socket becomes [w] once
    upgraded. *)
Definition on_upgrade (accessToken refreshToken : QueryValue) (w : WebSocket)
  (s : State) : Response * State :=
  match upgrade accessToken refreshToken (users s) with
  | Good userId => (Upgraded userId, on_connection w userId s)
  | Bad => (Unauthorized, s)
  end.

(** *** The server as a transition system *)

(** The requests that write the View, Match and Message tables, the like
    counter or the registry.  The routes that create or update accounts
    (the logins, PUT /user and its siblings) are not among them: [run] and
    [reachable] speak of sequences of the requests below, over whatever
    accounts there are. *)
Inductive Request :=
| PostView (fault : option Error) (me userId : UserId) (liked : bool)
| PostMessage (me recipientId : UserId) (text : string) (now : Z)
| GetMessages (me userId : UserId) (cursor : option Z)
| PostUnmatch (me userId : UserId)
| PostReport (fault : option Error) (me userId : UserId) (unmatchOrReject : string)
| WsUpgrade (accessToken refreshToken : QueryValue) (w : WebSocket)
| WsMessage (userId : UserId) (type_ : string) (peer : option UserId)
| WsClose (userId : UserId).

Definition handle (r : Request) (s : State) : Response * State :=
  match r with
  | PostView fault me userId liked => post_view fault me userId liked s
  | PostMessage me recipientId text now => post_message me recipientId text now s
  | GetMessages me userId cursor => get_messages me userId cursor s
  | PostUnmatch me userId => post_unmatch me userId s
  | PostReport fault me userId k => post_report fault me userId k s
  | WsUpgrade a r w => on_upgrade a r w s
  | WsMessage userId t peer => (NoReply, on_message userId t peer s)
  | WsClose userId => (NoReply, on_close userId s)
  end.

(** The state after a sequence of requests, oldest first. *)
Definition run (trace : list Request) (s : State) : State :=
  fold_left (fun s r => snd (handle r s)) trace s.

Inductive reachable : State -> Prop :=
| reachable_initial accounts : reachable (initial accounts)
| reachable_step r s : reachable s -> reachable (snd (handle r s)).

(** ** Observations used in the statements *)

(** The Match rows stored for the unordered pair [{a, b}], in either order. *)
Definition pair_rows (a b : UserId) (tbl : list Match.t) : list Match.t :=
  List.filter
    (fun m =>
       (bool_decide (Match.userId1 m = a) && bool_decide (Match.userId2 m = b))
       || (bool_decide (Match.userId1 m = b) && bool_decide (Match.userId2 m = a)))
    tbl.

Definition has_match (a b : UserId) (s : State) : bool :=
  negb (Nat.eqb (length (pair_rows a b (matches s))) 0).

(** The View rows stored for the directed pair [viewer -> target]. *)
Definition view_rows (viewer target : UserId) (tbl : list View.t) : list View.t :=
  List.filter (View.same_pair (View.mk viewer target true)) tbl.

(** [View(viewer -> target, liked = true)] exists. *)
Definition likes (viewer target : UserId) (s : State) : bool :=
  existsb
    (fun v => bool_decide (View.viewerId v = viewer)
              && bool_decide (View.targetId v = target)
              && View.liked v)
    (views s).

(** The read flag on [u]'s side of a Match row, and the flag on the other
    side: the side is [read1] when [u] is the row's [userId1], [read2]
    otherwise. *)
Definition read_of (u : UserId) (m : Match.t) : bool :=
  if bool_decide (Match.userId1 m = u) then Match.read1 m else Match.read2 m.
Definition read_of_other (u : UserId) (m : Match.t) : bool :=
  if bool_decide (Match.userId1 m = u) then Match.read2 m else Match.read1 m.


(** A request that deletes Match rows. *)
Definition is_unmatch (r : Request) : bool :=
  match r with
  | PostUnmatch _ _ => true
  | PostReport _ _ _ k => bool_decide (k = "unmatch")
  | _ => false
  end.

(** A request by which [viewer] records a View of [target]. *)
Definition views_pair (viewer target : UserId) (r : Request) : bool :=
  match r with
  | PostView _ me userId _ => bool_decide (me = viewer) && bool_decide (userId = target)
  | PostReport _ me userId _ => bool_decide (me = viewer) && bool_decide (userId = target)
  | _ => false
  end.

(** [createdAt] never increases along the list. *)
Definition newest_first (l : list Message.t) : Prop :=
  StronglySorted (fun a b => Message.createdAt b <= Message.createdAt a) l.

(** An UPDATE that leaves the pair of a row alone. *)
Definition keeps_keys (set : Match.t -> Match.t) : Prop :=
  forall m, Match.userId1 (set m) = Match.userId1 m
            /\ Match.userId2 (set m) = Match.userId2 m.

(** The invariant of the two relationship tables: a View row is unique per
    directed pair; a Match row is backed by a like in both directions, is
    stored in canonical order, and is unique per unordered pair. *)
Definition Inv (s : State) : Prop :=
  (forall viewer target, (length (view_rows viewer target (views s)) <= 1)%nat)
  /\ (forall m, In m (matches s) ->
        likes (Match.userId1 m) (Match.userId2 m) s = true
        /\ likes (Match.userId2 m) (Match.userId1 m) s = true)
  /\ (forall m, In m (matches s) ->
        String.ltb (Match.userId1 m) (Match.userId2 m) = true)
  /\ (forall a b, (length (pair_rows a b (matches s)) <= 1)%nat).


(** ** Further handlers and observations *)

(** The frame that [wsSend(key, v)] writes, if any. *)
Definition frame_to (key : UserId) (v : WsEvent) (s : State)
  : list (WebSocket * WsEvent) :=
  match wsUsers s !! key with
  | Some e => [(ws e, v)]
  | None => []
  end.

(** The number of likes recorded for [target]. *)
Definition likes_received (target : UserId) (tbl : list View.t) : nat :=
  length (List.filter
            (fun v => bool_decide (View.targetId v = target) && View.liked v) tbl).

(** GET /feed: the ids that satisfy the WHERE clause of the feed query, before
    [ORDER BY] and [LIMIT 20]: accounts that [me] has no View of
    ([left join view v ... where v is null]), other than [me]
    ([u.id != $3]), and that pass the conditions on the profile columns
    ([profile_ok]: goal, age, location, gender, code images, shadow ban). *)
Definition feed_candidates (profile_ok : UserId -> bool) (me : UserId) (s : State)
  : list UserId :=
  List.filter
    (fun u =>
       negb (existsb (fun v => bool_decide (View.viewerId v = me)
                               && bool_decide (View.targetId v = u)) (views s))
       && negb (bool_decide (u = me))
       && profile_ok u)
    (map fst (map_to_list (users s))).


(** ** Order of identifiers *)

Lemma ltb_irrefl (a : string) : String.ltb a a = false.
Proof.
  unfold String.ltb.
  destruct (String.compare a a) eqn:E; try reflexivity.
  pose proof (String.compare_antisym a a) as H.
  rewrite E in H. discriminate H.
Qed.

Lemma ltb_total (a b : string) :
  a <> b -> String.ltb a b = false -> String.ltb b a = true.
Proof.
  unfold String.ltb. intros Hne H.
  rewrite (String.compare_antisym b a).
  destruct (String.compare a b) eqn:E; simpl; try reflexivity; try discriminate.
  apply String.compare_eq_iff in E. contradiction.
Qed.

Lemma getUserIdOrder_cases (a b : UserId) :
  (getUserIdOrder a b = Order.mk a b /\ String.ltb a b = true)
  \/ (getUserIdOrder a b = Order.mk b a /\ String.ltb a b = false).
Proof. unfold getUserIdOrder. destruct (String.ltb a b); auto. Qed.

Lemma getUserIdOrder_canonical (a b : UserId) :
  a <> b ->
  String.ltb (Order.userId1 (getUserIdOrder a b)) (Order.userId2 (getUserIdOrder a b)) = true.
Proof.
  intros Hne. destruct (getUserIdOrder_cases a b) as [[-> H]|[-> H]]; simpl; auto.
  apply ltb_total; auto.
Qed.

(** ** Frame lemmas: what the delivery helpers leave alone *)

Lemma wsSend_frame (key : UserId) (v : WsEvent) (s : State) :
  views (wsSend key v s) = views s
  /\ matches (wsSend key v s) = matches s
  /\ messages (wsSend key v s) = messages s
  /\ users (wsSend key v s) = users s
  /\ wsUsers (wsSend key v s) = wsUsers s
  /\ pushQueue (wsSend key v s) = pushQueue s.
Proof. unfold wsSend. destruct (wsUsers s !! key); simpl; auto 10. Qed.

Lemma views_wsSend key v s : views (wsSend key v s) = views s.
Proof. apply wsSend_frame. Qed.
Lemma matches_wsSend key v s : matches (wsSend key v s) = matches s.
Proof. apply wsSend_frame. Qed.
Lemma messages_wsSend key v s : messages (wsSend key v s) = messages s.
Proof. apply wsSend_frame. Qed.
Lemma users_wsSend key v s : users (wsSend key v s) = users s.
Proof. apply wsSend_frame. Qed.
Lemma wsUsers_wsSend key v s : wsUsers (wsSend key v s) = wsUsers s.
Proof. apply wsSend_frame. Qed.
Lemma pushQueue_wsSend key v s : pushQueue (wsSend key v s) = pushQueue s.
Proof. apply wsSend_frame. Qed.

Lemma connected_wsSend key key' v s : connected key (wsSend key' v s) = connected key s.
Proof. unfold connected. now rewrite wsUsers_wsSend. Qed.

Lemma sent_wsSend key v s e :
  wsUsers s !! key = Some e -> sent (wsSend key v s) = sent s ++ [(ws e, v)].
Proof. intros H. unfold wsSend. now rewrite H. Qed.

Lemma connected_true key s :
  connected key s = true <-> exists e, wsUsers s !! key = Some e.
Proof.
  unfold connected. rewrite bool_decide_eq_true. unfold is_Some. reflexivity.
Qed.

Create Rewrite HintDb frame.
#[local] Hint Rewrite views_wsSend matches_wsSend messages_wsSend users_wsSend
  wsUsers_wsSend pushQueue_wsSend connected_wsSend : frame.

Ltac frame :=
  repeat (autorewrite with frame;
          cbn [views matches messages users wsUsers sent pushQueue
               set_views set_matches set_messages set_users set_wsUsers
               set_sent set_pushQueue queuePushNotifToSend fst snd]).

(** ** Table operations *)

Lemma update_none (tbl : list Match.t) (set : Match.t -> Match.t) :
  Match.update tbl (fun _ => false) set = tbl.
Proof. unfold Match.update. induction tbl; simpl; congruence. Qed.

Lemma findOne_likes (s : State) (u me : UserId) :
  bool_decide (is_Some (View.findOne (views s) u me true)) = likes u me s.
Proof.
  unfold View.findOne, likes.
  induction (views s) as [|v tbl IH]; simpl; [reflexivity|].
  destruct (bool_decide (View.viewerId v = u)), (bool_decide (View.targetId v = me)),
    (View.liked v); simpl; auto.
Qed.

Lemma view_insert_inv fault tbl row r :
  View.insert fault tbl row = r ->
  (exists e, r = inl e)
  \/ (fault = None /\ existsb (View.same_pair row) tbl = false /\ r = inr (tbl ++ [row])).
Proof.
  unfold View.insert. intros <-.
  destruct fault; [eauto|].
  destruct (existsb (View.same_pair row) tbl); eauto.
Qed.

(** ** What POST /view does to the tables *)

Lemma post_view_cases fault me u l s :
  (snd (post_view fault me u l s) = s
   /\ existsb (View.same_pair (View.mk me u l)) (views s) = true
   /\ fault = None
   /\ fst (post_view fault me u l s) = ViewJson false false)
  \/ (snd (post_view fault me u l s) = s
      /\ exists e, fault = Some e
                   /\ fst (post_view fault me u l s)
                      = if includes "duplicate key" (message e)
                        then ViewJson false false else Thrown e)
  \/ (fault = None
      /\ existsb (View.same_pair (View.mk me u l)) (views s) = false
      /\ views (snd (post_view fault me u l s)) = views s ++ [View.mk me u l]
      /\ ((fst (post_view fault me u l s) = ViewJson false true
           /\ matches (snd (post_view fault me u l s)) = matches s
           /\ (l = false \/ likes u me s = false))
          \/ (fst (post_view fault me u l s) = ViewJson true true
              /\ l = true /\ likes u me s = true
              /\ matches (snd (post_view fault me u l s))
                 = Match.insert defaults (matches s) (getUserIdOrder u me)))).
Proof.
  unfold post_view, View.insert.
  destruct fault as [e|].
  - right; left.
    destruct (includes "duplicate key" (message e)) eqn:E; simpl;
      (split; [reflexivity|]; exists e; rewrite E; auto).
  - destruct (existsb (View.same_pair (View.mk me u l)) (views s)) eqn:Hdup.
    + left. simpl. auto.
    + right; right. split; [reflexivity|]. split; [reflexivity|].
      destruct l.
      * rewrite (findOne_likes s u me).
        destruct (likes u me s) eqn:Hl; simpl.
        -- split.
           ++ destruct (negb _); frame; reflexivity.
           ++ right. repeat split.
              destruct (negb _); frame; reflexivity.
        -- split; [frame; reflexivity|].
           left. frame. auto.
      * simpl. split; [reflexivity|]. left. auto.
Qed.

(** ** What any request does to the two relationship tables *)

Lemma set_read_keys (b : bool) (m : Match.t) :
  (Match.userId1 (Match.set_read1 b m) = Match.userId1 m
   /\ Match.userId2 (Match.set_read1 b m) = Match.userId2 m)
  /\ (Match.userId1 (Match.set_read2 b m) = Match.userId1 m
      /\ Match.userId2 (Match.set_read2 b m) = Match.userId2 m).
Proof. split; split; reflexivity. Qed.

Lemma handle_tables r s :
  (views (snd (handle r s)) = views s
   /\ exists crit set,
        keeps_keys set
        /\ matches (snd (handle r s)) = Match.update (matches s) crit set)
  \/ (views (snd (handle r s)) = views s
      /\ is_unmatch r = true
      /\ exists o, matches (snd (handle r s)) = Match.delete (matches s) o)
  \/ (exists me u l,
        views_pair me u r = true
        /\ existsb (View.same_pair (View.mk me u l)) (views s) = false
        /\ views (snd (handle r s)) = views s ++ [View.mk me u l]
        /\ ((matches (snd (handle r s)) = matches s
             /\ (l = false \/ likes u me s = false))
            \/ (l = true /\ likes u me s = true
                /\ fst (handle r s) = ViewJson true true
                /\ r = PostView None me u true
                /\ matches (snd (handle r s))
                   = Match.insert defaults (matches s) (getUserIdOrder u me)))).
Proof.
  assert (Hidle : forall s' : State,
             views s' = views s -> matches s' = matches s ->
             views s' = views s
             /\ exists crit set,
                  keeps_keys set /\ matches s' = Match.update (matches s) crit set).
  { intros s' Hv Hm. split; [exact Hv|].
    exists (fun _ => false), (fun m => m). split; [split; reflexivity|].
    now rewrite update_none. }
  destruct r as [fault me u l|me rcp txt now|me u cursor|me u|fault me u k|a rf w|u t peer|u];
    cbn [handle].
  - (* POST /view *)
    destruct (post_view_cases fault me u l s)
      as [(Hs & _)|[(Hs & _)|(Hf & Hdup & Hv & Hm)]].
    + left. rewrite Hs. now apply Hidle.
    + left. rewrite Hs. now apply Hidle.
    + right; right. exists me, u, l. cbn [views_pair].
      rewrite !bool_decide_eq_true_2 by reflexivity.
      split; [reflexivity|]. split; [exact Hdup|]. split; [exact Hv|].
      destruct Hm as [(_ & Hm & Hl)|(Hr & -> & Hl & Hm)]; [left; auto|].
      right. subst fault. auto.
  - (* POST /message *)
    left. unfold post_message. cbn [Message.recipientId Message.text snd].
    match goal with |- context [if ?c then set_matches _ _ else _] => destruct c end.
    + split; [destruct (negb _); frame; reflexivity|].
      eexists _, _. split; [|destruct (negb _); frame; reflexivity].
      destruct (bool_decide _); intro m; apply set_read_keys.
    + apply Hidle; destruct (negb _); frame; reflexivity.
  - (* GET /messages *)
    left. unfold get_messages.
    destruct (query_resolves cursor); cbn [negb snd]; [|now apply Hidle].
    destruct (negb (truthy cursor)).
    + split; [destruct (wsUsers s !! me); frame; reflexivity|].
      eexists _, _. split; [|destruct (wsUsers s !! me); frame; reflexivity].
      destruct (bool_decide _); intro m; apply set_read_keys.
    + apply Hidle; destruct (wsUsers s !! me); frame; reflexivity.
  - (* POST /unmatch *)
    right; left. unfold post_unmatch. cbn [snd is_unmatch]. frame.
    split; [reflexivity|]. split; [reflexivity|]. eauto.
  - (* POST /report *)
    unfold post_report. cbn [is_unmatch].
    destruct (bool_decide (k = "unmatch")) eqn:Hk.
    + apply bool_decide_eq_true in Hk. subst k.
      rewrite bool_decide_eq_false_2 by discriminate.
      right; left. cbn [snd]. frame.
      split; [reflexivity|]. split; [reflexivity|]. eauto.
    + destruct (bool_decide (k = "reject")) eqn:Hr.
      * destruct (view_insert_inv fault (views s) (View.mk me u false) _ eq_refl)
          as [[e He]|(Hf & Hdup & He)]; rewrite He; cbn [snd].
        -- left. now apply Hidle.
        -- right; right. exists me, u, false. cbn [views_pair].
           rewrite !bool_decide_eq_true_2 by reflexivity. frame.
           split; [reflexivity|]. split; [exact Hdup|]. split; [reflexivity|].
           left. auto.
      * left. now apply Hidle.
  - (* upgrade *)
    left. unfold on_upgrade.
    destruct (upgrade a rf (users s)); cbn [snd]; [|now apply Hidle].
    unfold on_connection. destruct (bool_decide _); now apply Hidle.
  - (* socket message *)
    left. cbn [snd]. unfold on_message.
    destruct (bool_decide _); [|now apply Hidle].
    destruct (wsUsers s !! u); now apply Hidle.
  - (* socket close *)
    left. cbn [snd]. unfold on_close. now apply Hidle.
Qed.

(** ** Rows of a pair under the table operations *)

Lemma filter_nil_iff {A} (f : A -> bool) (l : list A) :
  (forall x, In x l -> f x = false) -> List.filter f l = [].
Proof.
  induction l as [|x l IH]; simpl; intros H; [reflexivity|].
  rewrite (H x) by auto. apply IH. intros y Hy. apply H. auto.
Qed.

Lemma filter_length_le {A} (f : A -> bool) (l : list A) :
  (length (List.filter f l) <= length l)%nat.
Proof. induction l as [|x l IH]; simpl; [lia|]. destruct (f x); simpl; lia. Qed.

Lemma pair_rows_update a b tbl crit set :
  keeps_keys set ->
  length (pair_rows a b (Match.update tbl crit set)) = length (pair_rows a b tbl).
Proof.
  intros Hk. unfold pair_rows, Match.update.
  induction tbl as [|m tbl IH]; simpl; [reflexivity|].
  assert (Hm : forall m', Match.userId1 m' = Match.userId1 m ->
                          Match.userId2 m' = Match.userId2 m ->
    (bool_decide (Match.userId1 m' = a) && bool_decide (Match.userId2 m' = b)
     || bool_decide (Match.userId1 m' = b) && bool_decide (Match.userId2 m' = a))
    = (bool_decide (Match.userId1 m = a) && bool_decide (Match.userId2 m = b)
       || bool_decide (Match.userId1 m = b) && bool_decide (Match.userId2 m = a))).
  { intros m' -> ->. reflexivity. }
  destruct (crit m).
  - rewrite (Hm (set m)) by apply Hk.
    destruct (_ || _); simpl; rewrite IH; reflexivity.
  - destruct (_ || _); simpl; rewrite IH; reflexivity.
Qed.

Lemma pair_rows_delete a b tbl o :
  (length (pair_rows a b (Match.delete tbl o)) <= length (pair_rows a b tbl))%nat.
Proof.
  unfold pair_rows, Match.delete.
  induction tbl as [|m tbl IH]; simpl; [lia|].
  destruct (negb (Match.is_pair o m)); simpl; destruct (_ || _); simpl; lia.
Qed.

Lemma pair_rows_app a b tbl tbl' :
  pair_rows a b (tbl ++ tbl') = pair_rows a b tbl ++ pair_rows a b tbl'.
Proof. unfold pair_rows. apply List.filter_app. Qed.

Lemma pair_rows_In a b tbl m :
  In m (pair_rows a b tbl) <->
  In m tbl /\ ((Match.userId1 m = a /\ Match.userId2 m = b)
               \/ (Match.userId1 m = b /\ Match.userId2 m = a)).
Proof.
  unfold pair_rows. rewrite List.filter_In.
  rewrite orb_true_iff, !andb_true_iff, !bool_decide_eq_true. reflexivity.
Qed.

Lemma update_In tbl crit set m :
  In m (Match.update tbl crit set) ->
  exists m0, In m0 tbl /\ (m = m0 \/ m = set m0).
Proof.
  unfold Match.update. rewrite List.in_map_iff. intros (m0 & Hm & Hin).
  exists m0. split; [exact Hin|]. destruct (crit m0); auto.
Qed.

Lemma delete_In tbl o m : In m (Match.delete tbl o) -> In m tbl.
Proof. unfold Match.delete. rewrite List.filter_In. tauto. Qed.

Lemma likes_views a b s s' : views s' = views s -> likes a b s' = likes a b s.
Proof. unfold likes. now intros ->. Qed.

Lemma likes_app a b s s' row :
  views s' = views s ++ [row] ->
  likes a b s' =
  likes a b s
  || (bool_decide (View.viewerId row = a) && bool_decide (View.targetId row = b)
      && View.liked row).
Proof.
  unfold likes. intros ->. rewrite existsb_app. simpl. now rewrite orb_false_r.
Qed.

Lemma likes_recorded a b l s :
  likes a b s = true -> existsb (View.same_pair (View.mk a b l)) (views s) = true.
Proof.
  unfold likes. rewrite !existsb_exists. intros (v & Hin & Hv).
  exists v. split; [exact Hin|]. unfold View.same_pair. simpl.
  apply andb_true_iff in Hv as [Hv _]. apply andb_true_iff in Hv as [H1 H2].
  apply bool_decide_eq_true in H1, H2.
  rewrite !bool_decide_eq_true_2; auto.
Qed.

Lemma view_rows_fresh me u l tbl :
  existsb (View.same_pair (View.mk me u l)) tbl = false -> view_rows me u tbl = [].
Proof.
  intros H. unfold view_rows. apply filter_nil_iff. intros x Hx.
  destruct (View.same_pair (View.mk me u true) x) eqn:E; [|reflexivity].
  assert (existsb (View.same_pair (View.mk me u l)) tbl = true); [|congruence].
  apply existsb_exists. exists x. auto.
Qed.

Lemma view_rows_recorded me u l tbl :
  existsb (View.same_pair (View.mk me u l)) tbl = true -> view_rows me u tbl <> [].
Proof.
  rewrite existsb_exists. intros (x & Hin & Hx) Hnil.
  assert (In x (view_rows me u tbl)); [|rewrite Hnil in *; contradiction].
  unfold view_rows. apply List.filter_In. auto.
Qed.

(** ** The invariant holds in every reachable state *)

Lemma Inv_initial accounts : Inv (initial accounts).
Proof.
  repeat split; simpl; try contradiction; intros; lia.
Qed.

Lemma Inv_step r s : Inv s -> Inv (snd (handle r s)).
Proof.
  intros (Hv & Hl & Ho & Hu).
  destruct (handle_tables r s)
    as [(Ev & crit & set & Hk & Em)
       |[(Ev & _ & o & Em)
        |(me & u & l & _ & Hdup & Ev & Hm)]].
  - (* an UPDATE of read flags *)
    unfold Inv. rewrite Ev, Em. repeat split.
    + exact Hv.
    + apply update_In in H as (m0 & Hin & [->| ->]);
        rewrite ?(proj1 (Hk m0)), ?(proj2 (Hk m0));
        rewrite (likes_views _ _ s) by exact Ev; now apply Hl.
    + apply update_In in H as (m0 & Hin & [->| ->]);
        rewrite ?(proj1 (Hk m0)), ?(proj2 (Hk m0));
        rewrite (likes_views _ _ s) by exact Ev; now apply Hl.
    + intros m H. apply update_In in H as (m0 & Hin & [->| ->]);
        rewrite ?(proj1 (Hk m0)), ?(proj2 (Hk m0)); now apply Ho.
    + intros a b. rewrite pair_rows_update by exact Hk. apply Hu.
  - (* a DELETE *)
    unfold Inv. rewrite Ev, Em. repeat split.
    + exact Hv.
    + apply delete_In in H. rewrite (likes_views _ _ s) by exact Ev. now apply Hl.
    + apply delete_In in H. rewrite (likes_views _ _ s) by exact Ev. now apply Hl.
    + intros m H. apply delete_In in H. now apply Ho.
    + intros a b. pose proof (pair_rows_delete a b (matches s) o).
      pose proof (Hu a b). lia.
  - (* a View row is inserted *)
    assert (Hmono : forall a b, likes a b s = true ->
                                likes a b (snd (handle r s)) = true).
    { intros a b H. rewrite (likes_app a b s _ _ Ev), H. reflexivity. }
    assert (Hviews : forall viewer target,
               (length (view_rows viewer target (views (snd (handle r s)))) <= 1)%nat).
    { intros viewer target. rewrite Ev. unfold view_rows.
      rewrite List.filter_app, length_app. simpl.
      destruct (View.same_pair (View.mk viewer target true) (View.mk me u l)) eqn:E.
      - unfold View.same_pair in E. simpl in E.
        apply andb_true_iff in E as [E1 E2].
        apply bool_decide_eq_true in E1, E2. subst viewer target.
        pose proof (view_rows_fresh me u l _ Hdup) as Hnil.
        unfold view_rows in Hnil. rewrite Hnil. simpl. lia.
      - pose proof (Hv viewer target) as H. unfold view_rows in H. simpl. lia. }
    destruct Hm as [(Em & _)|(-> & Hlk & _ & _ & Em)].
    + unfold Inv. rewrite Em. repeat split.
      * exact Hviews.
      * apply Hmono. now apply Hl.
      * apply Hmono. now apply Hl.
      * exact Ho.
      * exact Hu.
    + assert (Hne : u <> me).
      { intros ->. pose proof (likes_recorded me me true s Hlk). congruence. }
      assert (Hnew : likes me u (snd (handle r s)) = true).
      { rewrite (likes_app me u s _ _ Ev). simpl.
        rewrite !bool_decide_eq_true_2 by reflexivity. apply orb_true_r. }
      unfold Inv. rewrite Em. unfold Match.insert. repeat split.
      * exact Hviews.
      * apply in_app_or in H as [H|[<-|[]]]; [apply Hmono; now apply Hl|].
        simpl. destruct (getUserIdOrder_cases u me) as [[-> _]|[-> _]]; simpl; auto.
      * apply in_app_or in H as [H|[<-|[]]]; [apply Hmono; now apply Hl|].
        simpl. destruct (getUserIdOrder_cases u me) as [[-> _]|[-> _]]; simpl; auto.
      * intros m H. apply in_app_or in H as [H|[<-|[]]]; [now apply Ho|].
        simpl. now apply getUserIdOrder_canonical.
      * intros a b. rewrite pair_rows_app, length_app.
        destruct (pair_rows a b [Match.mk (Order.userId1 (getUserIdOrder u me))
                                          (Order.userId2 (getUserIdOrder u me))
                                          (Match.default_read1 defaults)
                                          (Match.default_read2 defaults)
                                          (Match.default_unmatched defaults)])
          as [|x rest] eqn:E.
        -- simpl. pose proof (Hu a b). lia.
        -- assert (Hx : In x (x :: rest)) by (left; reflexivity).
           rewrite <- E in Hx. apply pair_rows_In in Hx as ([<-|[]] & Hab).
           simpl in Hab.
           assert (Hold : pair_rows a b (matches s) = []).
           { apply filter_nil_iff. intros m Hin.
             destruct (_ || _) eqn:Em'; [|reflexivity]. exfalso.
             assert (Hm : In m (pair_rows a b (matches s))).
             { unfold pair_rows. apply List.filter_In. auto. }
             apply pair_rows_In in Hm as (_ & Hkeys).
             destruct (Hl m Hin) as [H12 H21].
             assert (likes me u s = true) as Hmu.
             { destruct (getUserIdOrder_cases u me) as [[Eo _]|[Eo _]];
                 rewrite Eo in Hab; simpl in Hab;
                 destruct Hab as [[<- <-]|[<- <-]], Hkeys as [[K1 K2]|[K1 K2]];
                 rewrite K1, K2 in H12, H21; assumption. }
             pose proof (likes_recorded me u true s Hmu). congruence. }
           match type of E with
           | ?rows = _ =>
               assert (Hle : (length rows <= 1)%nat)
                 by (unfold pair_rows; apply (filter_length_le _ [_]))
           end.
           rewrite E in Hle. rewrite Hold. cbn [length Nat.add] in Hle |- *. exact Hle.
Qed.

Lemma reachable_Inv s : reachable s -> Inv s.
Proof.
  induction 1 as [accounts|r s _ IH]; [apply Inv_initial|now apply Inv_step].
Qed.

(** ** Runs *)

Lemma run_app t1 t2 s : run (t1 ++ t2) s = run t2 (run t1 s).
Proof. unfold run. apply fold_left_app. Qed.

Lemma run_snoc t r s : run (t ++ [r]) s = snd (handle r (run t s)).
Proof. rewrite run_app. reflexivity. Qed.

Lemma reachable_run t s : reachable s -> reachable (run t s).
Proof.
  revert s. induction t as [|r t IH]; intros s H; simpl; [exact H|].
  apply IH. now constructor.
Qed.

Lemma reachable_iff_run s :
  reachable s <-> exists accounts t, s = run t (initial accounts).
Proof.
  split.
  - induction 1 as [accounts|r s _ (accounts & t & ->)].
    + exists accounts, []. reflexivity.
    + exists accounts, (t ++ [r]). now rewrite run_snoc.
  - intros (accounts & t & ->). apply reachable_run. constructor.
Qed.

(** ** Likes and rows *)

Lemma likes_no_rows a b s : view_rows a b (views s) = [] -> likes a b s = false.
Proof.
  intros H. destruct (likes a b s) eqn:E; [|reflexivity].
  apply (likes_recorded a b true) in E. now apply view_rows_recorded in E.
Qed.

Lemma no_rows_fresh a b l tbl :
  view_rows a b tbl = [] -> existsb (View.same_pair (View.mk a b l)) tbl = false.
Proof.
  intros H. destruct (existsb _ tbl) eqn:E; [|reflexivity].
  now apply view_rows_recorded in E.
Qed.

Lemma no_pair_rows a b s :
  Inv s -> likes a b s = false \/ likes b a s = false ->
  pair_rows a b (matches s) = [].
Proof.
  intros (_ & Hl & _ & _) Hno.
  apply filter_nil_iff. intros m Hin.
  destruct (_ || _) eqn:E; [|reflexivity]. exfalso.
  assert (Hm : In m (pair_rows a b (matches s))).
  { unfold pair_rows. apply List.filter_In. auto. }
  apply pair_rows_In in Hm as (_ & Hkeys).
  destruct (Hl m Hin) as [H12 H21].
  destruct Hkeys as [[K1 K2]|[K1 K2]]; rewrite K1, K2 in H12, H21;
    destruct Hno; congruence.
Qed.

Lemma pair_rows_new a b d :
  a <> b ->
  pair_rows a b (Match.insert d [] (getUserIdOrder a b))
  = Match.insert d [] (getUserIdOrder a b).
Proof.
  intros Hne. unfold Match.insert, pair_rows. simpl.
  destruct (getUserIdOrder_cases a b) as [[-> _]|[-> _]]; simpl;
    rewrite (bool_decide_eq_true_2 (a = a) eq_refl),
            (bool_decide_eq_true_2 (b = b) eq_refl); simpl;
    rewrite ?orb_true_r; reflexivity.
Qed.

Lemma update_length tbl crit set : length (Match.update tbl crit set) = length tbl.
Proof. unfold Match.update. apply length_map. Qed.

Lemma delete_length tbl o : (length (Match.delete tbl o) <= length tbl)%nat.
Proof. unfold Match.delete. apply filter_length_le. Qed.

(** The Match table grows only through a /view request that answers
    [{match: true, ok: true}]. *)
Lemma match_created_by_view r s :
  (length (matches s) < length (matches (snd (handle r s))))%nat ->
  exists me u, r = PostView None me u true
               /\ fst (handle r s) = ViewJson true true.
Proof.
  intros Hlt.
  destruct (handle_tables r s)
    as [(_ & crit & set & _ & Em)
       |[(_ & _ & o & Em)
        |(me & u & l & _ & _ & _ & [(Em & _)|(_ & _ & Hr & -> & _)])]].
  - rewrite Em, update_length in Hlt. lia.
  - rewrite Em in Hlt. pose proof (delete_length (matches s) o). lia.
  - rewrite Em in Hlt. lia.
  - eauto.
Qed.

(** Between the two likes nothing records a View of [b -> a]. *)
Lemma run_keeps_pending a b mid s :
  forallb (fun r => negb (views_pair b a r)) mid = true ->
  likes a b s = true -> view_rows b a (views s) = [] ->
  likes a b (run mid s) = true /\ view_rows b a (views (run mid s)) = [].
Proof.
  revert s. induction mid as [|r mid IH]; intros s Hmid Hl Hn; simpl in *; [auto|].
  apply andb_true_iff in Hmid as [Hr Hmid].
  apply IH; [exact Hmid| |].
  - destruct (handle_tables r s)
      as [(Ev & _)|[(Ev & _)|(me & u & l & _ & _ & Ev & _)]].
    + now rewrite (likes_views _ _ s).
    + now rewrite (likes_views _ _ s).
    + now rewrite (likes_app _ _ s _ _ Ev), Hl.
  - destruct (handle_tables r s)
      as [(Ev & _)|[(Ev & _)|(me & u & l & Hp & _ & Ev & _)]];
      rewrite Ev; [exact Hn|exact Hn|].
    unfold view_rows in *. rewrite List.filter_app, Hn. simpl.
    destruct (View.same_pair _ _) eqn:E; [|reflexivity]. exfalso.
    unfold View.same_pair in E. simpl in E.
    apply andb_true_iff in E as [E1 E2].
    apply bool_decide_eq_true in E1, E2. subst me u.
    rewrite Hp in Hr. discriminate.
Qed.

(** ** Match formation *)

Lemma second_like a b s :
  Inv s -> a <> b ->
  likes a b s = true -> view_rows b a (views s) = [] ->
  fst (handle (PostView None b a true) s) = ViewJson true true
  /\ matches (snd (handle (PostView None b a true) s))
     = matches s ++ Match.insert defaults [] (getUserIdOrder a b)
  /\ pair_rows a b (matches (snd (handle (PostView None b a true) s)))
     = Match.insert defaults [] (getUserIdOrder a b).
Proof.
  intros HI Hne Hl Hn. cbn [handle].
  destruct (post_view_cases None b a true s)
    as [(_ & Hdup & _)|[(_ & e & He & _)|(_ & _ & _ & Hm)]].
  - rewrite (no_rows_fresh b a true _ Hn) in Hdup. discriminate.
  - discriminate.
  - destruct Hm as [(_ & _ & [H|H])|(Hr & _ & _ & Em)]; [discriminate|congruence|].
    split; [exact Hr|]. split; [exact Em|].
    rewrite Em. unfold Match.insert at 1. rewrite pair_rows_app.
    rewrite (no_pair_rows a b s HI) by (right; now apply likes_no_rows).
    apply pair_rows_new. exact Hne.
Qed.

Lemma first_like a b s :
  Inv s -> a <> b ->
  view_rows a b (views s) = [] -> view_rows b a (views s) = [] ->
  fst (handle (PostView None a b true) s) = ViewJson false true
  /\ matches (snd (handle (PostView None a b true) s)) = matches s
  /\ likes a b (snd (handle (PostView None a b true) s)) = true
  /\ view_rows b a (views (snd (handle (PostView None a b true) s))) = [].
Proof.
  intros HI Hne Hab Hba. cbn [handle].
  destruct (post_view_cases None a b true s)
    as [(_ & Hdup & _)|[(_ & e & He & _)|(_ & _ & Ev & Hm)]].
  - rewrite (no_rows_fresh a b true _ Hab) in Hdup. discriminate.
  - discriminate.
  - destruct Hm as [(Hr & Em & _)|(_ & _ & Hl & _)].
    + split; [exact Hr|]. split; [exact Em|]. split.
      * rewrite (likes_app _ _ s _ _ Ev). simpl.
        rewrite !bool_decide_eq_true_2 by reflexivity. apply orb_true_r.
      * rewrite Ev. unfold view_rows in *. rewrite List.filter_app, Hba. simpl.
        unfold View.same_pair. simpl.
        rewrite (bool_decide_eq_false_2 (b = a)) by congruence. reflexivity.
    + rewrite (likes_no_rows b a s Hba) in Hl. discriminate.
Qed.

(** Nobody is ever matched with themselves. *)
Lemma no_self_match a s : reachable s -> pair_rows a a (matches s) = [].
Proof.
  intros Hs. destruct (reachable_Inv s Hs) as (_ & _ & Ho & _).
  apply filter_nil_iff. intros m Hin.
  destruct (_ || _) eqn:E; [|reflexivity]. exfalso.
  assert (Hm : In m (pair_rows a a (matches s))).
  { unfold pair_rows. apply List.filter_In. auto. }
  apply pair_rows_In in Hm as (_ & [[K1 K2]|[K1 K2]]);
    specialize (Ho m Hin); rewrite K1, K2, ltb_irrefl in Ho; discriminate.
Qed.

(** C1.  Let A and B be two distinct users neither of whom has a View of the
    other yet.  After A likes B and, later, B likes A -- whatever requests are
    served in between, as long as none of them records a View of B for A --
    exactly one Match row exists for the pair, stored with
    [userId1 < userId2]; the first like answers [{match: false, ok: true}]
    and creates no Match row, the second one answers
    [{match: true, ok: true}]; and no request other than a /view answering
    [{match: true, ok: true}] ever adds a row to the Match table.  A and B
    are arbitrary, so the statement covers both orders. *)
Theorem C1_mutual_likes_form_one_match (A B : UserId) (mid : list Request) (s : State) :
  reachable s ->
  A <> B ->
  view_rows A B (views s) = [] ->
  view_rows B A (views s) = [] ->
  forallb (fun r => negb (views_pair B A r)) mid = true ->
  let first := handle (PostView None A B true) s in
  let s1 := run mid (snd first) in
  let second := handle (PostView None B A true) s1 in
  fst first = ViewJson false true
  /\ pair_rows A B (matches (snd first)) = []
  /\ pair_rows A B (matches s1) = []
  /\ fst second = ViewJson true true
  /\ (exists m, pair_rows A B (matches (snd second)) = [m]
                /\ String.ltb (Match.userId1 m) (Match.userId2 m) = true
                /\ matches (snd second) = matches s1 ++ [m])
  /\ (forall r s0,
        (length (matches s0) < length (matches (snd (handle r s0))))%nat ->
        exists me u, r = PostView None me u true
                     /\ fst (handle r s0) = ViewJson true true).
Proof.
  intros Hreach Hne Hab Hba Hmid first s1 second.
  pose proof (reachable_Inv s Hreach) as HI.
  destruct (first_like A B s HI Hne Hab Hba) as (Hr1 & Em1 & Hl1 & Hn1).
  fold first in Hr1, Em1, Hl1, Hn1.
  destruct (run_keeps_pending A B mid (snd first) Hmid Hl1 Hn1) as [Hl2 Hn2].
  fold s1 in Hl2, Hn2.
  assert (Hreach1 : reachable s1).
  { apply reachable_run. now constructor. }
  pose proof (reachable_Inv s1 Hreach1) as HI1.
  destruct (second_like A B s1 HI1 Hne Hl2 Hn2) as (Hr2 & Em2 & Hp2).
  fold second in Hr2, Em2, Hp2.
  split; [exact Hr1|].
  split.
  { rewrite Em1. apply no_pair_rows; [exact HI|].
    left. now apply likes_no_rows. }
  split.
  { apply no_pair_rows; [exact HI1|]. right. now apply likes_no_rows. }
  split; [exact Hr2|].
  split.
  { eexists. split; [exact Hp2|]. split; [|exact Em2].
    simpl. now apply getUserIdOrder_canonical. }
  exact match_created_by_view.
Qed.

(** ** Repeated actions *)

Lemma view_rows_step me u r s :
  view_rows me u (views s) <> [] ->
  view_rows me u (views (snd (handle r s))) <> [].
Proof.
  intros H.
  destruct (handle_tables r s)
    as [(Ev & _)|[(Ev & _)|(me' & u' & l & _ & _ & Ev & _)]];
    rewrite Ev; [exact H|exact H|].
  unfold view_rows in *. rewrite List.filter_app.
  intros E. apply app_eq_nil in E as [E _]. contradiction.
Qed.

Lemma view_rows_run me u t s :
  view_rows me u (views s) <> [] -> view_rows me u (views (run t s)) <> [].
Proof.
  revert s. induction t as [|r t IH]; intros s H; simpl; [exact H|].
  apply IH. now apply view_rows_step.
Qed.

Lemma view_recorded_after me u l s :
  view_rows me u (views (snd (handle (PostView None me u l) s))) <> [].
Proof.
  cbn [handle].
  destruct (post_view_cases None me u l s)
    as [(-> & Hdup & _)|[(_ & e & He & _)|(_ & _ & Ev & _)]].
  - now apply (view_rows_recorded me u l).
  - discriminate.
  - rewrite Ev. unfold view_rows. rewrite List.filter_app. simpl.
    unfold View.same_pair at 2. simpl.
    rewrite !bool_decide_eq_true_2 by reflexivity. simpl.
    intros E. apply app_eq_nil in E as [_ E]. discriminate.
Qed.

Lemma repeated_view me u l s :
  view_rows me u (views s) <> [] ->
  handle (PostView None me u l) s = (ViewJson false false, s).
Proof.
  intros H. cbn [handle].
  destruct (post_view_cases None me u l s)
    as [(Hs & _ & _ & Hr)|[(_ & e & He & _)|(_ & Hdup & _)]].
  - destruct (post_view None me u l s) as [resp s']. simpl in *. congruence.
  - discriminate.
  - apply view_rows_fresh in Hdup. contradiction.
Qed.

Lemma other_failure_thrown e me u l s :
  includes "duplicate key" (message e) = false ->
  handle (PostView (Some e) me u l) s = (Thrown e, s).
Proof.
  intros H. cbn [handle]. unfold post_view, View.insert. now rewrite H.
Qed.

(** C2.  Once a /view of [u] by [me] has been served (a like or a dislike),
    every later /view of [u] by [me], with the same or the other value and
    whatever was served in between, answers [{match: false, ok: false}] and
    changes nothing: in particular the View table keeps its single row for
    the pair.  A failure of the store whose message does not contain
    "duplicate key" is not answered that way: the handler rethrows it. *)
Theorem C2_repeated_view_not_ok (me u : UserId) (liked0 liked : bool)
  (mid : list Request) (s0 : State) :
  let s := run mid (snd (handle (PostView None me u liked0) s0)) in
  handle (PostView None me u liked) s = (ViewJson false false, s)
  /\ (reachable s0 -> length (view_rows me u (views s)) = 1%nat)
  /\ (forall e, includes "duplicate key" (message e) = false ->
                handle (PostView (Some e) me u liked) s = (Thrown e, s)).
Proof.
  intros s.
  assert (Hrec : view_rows me u (views s) <> []).
  { apply view_rows_run, view_recorded_after. }
  split; [now apply repeated_view|]. split.
  - intros Hreach.
    assert (Hs : reachable s) by (apply reachable_run; now constructor).
    destruct (reachable_Inv s Hs) as (Hv & _).
    specialize (Hv me u). destruct (view_rows me u (views s)); [contradiction|].
    simpl in *. lia.
  - intros e He. now apply other_failure_thrown.
Qed.

(** ** Matches and likes *)

Lemma has_match_true a b s :
  has_match a b s = true <-> pair_rows a b (matches s) <> [].
Proof.
  unfold has_match. destruct (pair_rows a b (matches s)); simpl; split;
    congruence.
Qed.

Lemma match_backed a b s :
  Inv s -> has_match a b s = true -> likes a b s = true /\ likes b a s = true.
Proof.
  intros HI H. apply has_match_true in H.
  destruct (likes a b s) eqn:Eab, (likes b a s) eqn:Eba; auto;
    exfalso; apply H; apply no_pair_rows; auto.
Qed.

(** ** Messages: live delivery, unread markers, notification jobs *)

Lemma slice0_length (n : nat) (text : string) :
  (String.length (slice0 n text) <= n)%nat.
Proof.
  unfold slice0. revert text.
  induction n as [|n IH]; intros [|c text]; simpl; try lia.
  specialize (IH text). lia.
Qed.

Lemma post_message_reply S R text now s :
  fst (post_message S R text now s) = MessageSent (Message.mk S R text now)
  /\ messages (snd (post_message S R text now s))
     = messages s ++ [Message.mk S R text now]
  /\ views (snd (post_message S R text now s)) = views s
  /\ wsUsers (snd (post_message S R text now s)) = wsUsers s.
Proof.
  unfold post_message. cbn [fst snd Message.recipientId Message.text].
  split; [reflexivity|].
  repeat split; destruct (negb _ || negb _); destruct (negb _); frame; reflexivity.
Qed.

Lemma post_message_connected S R text now e s :
  wsUsers s !! R = Some e ->
  let m := Message.mk S R text now in
  let o := getUserIdOrder S R in
  sent (snd (post_message S R text now s)) = sent s ++ [(ws e, NewMessage m)]
  /\ pushQueue (snd (post_message S R text now s)) = pushQueue s
  /\ matches (snd (post_message S R text now s))
     = if bool_decide (openChatUserId e = Some S) then matches s
       else Match.update (matches s)
              (fun r => Match.is_pair o r && Bool.eqb (Match.unmatched r) false)
              (if bool_decide (Order.userId1 o = R)
               then Match.set_read1 false else Match.set_read2 false).
Proof.
  intros He m o. unfold post_message.
  cbn [fst snd Message.recipientId Message.text]. fold m.
  assert (Hc : forall s0, wsUsers s0 = wsUsers s -> connected R s0 = true).
  { intros s0 E. apply connected_true. rewrite E. eauto. }
  assert (Hf : forall s0, wsUsers s0 = wsUsers s -> focusedPeer R s0 = openChatUserId e).
  { intros s0 E. unfold focusedPeer. now rewrite E, He. }
  rewrite (Hc (wsSend R (NewMessage m) _)) by (frame; reflexivity).
  rewrite (Hf (wsSend R (NewMessage m) _)) by (frame; reflexivity).
  cbn [negb orb].
  destruct (bool_decide (openChatUserId e = Some S)); cbn [negb].
  - rewrite (Hc (wsSend R (NewMessage m) _)) by (frame; reflexivity). cbn [negb].
    frame. split; [|auto]. now rewrite (sent_wsSend R _ _ e) by exact He.
  - rewrite (Hc (set_matches _ _)) by (frame; reflexivity). cbn [negb].
    frame. split; [|auto]. now rewrite (sent_wsSend R _ _ e) by exact He.
Qed.

Lemma post_message_queue S R text now s :
  pushQueue (snd (post_message S R text now s))
  = pushQueue s
    ++ (if connected R s then []
        else [mkPushJob R S PushMessage (Some (slice0 100 text))]).
Proof.
  unfold post_message. cbn [fst snd Message.recipientId Message.text].
  match goal with
  | |- context [if ?c then set_matches ?m ?s0 else ?s0] =>
      assert (Hw : wsUsers (if c then set_matches m s0 else s0) = wsUsers s)
        by (destruct c; frame; reflexivity);
      assert (Hq : pushQueue (if c then set_matches m s0 else s0) = pushQueue s)
        by (destruct c; frame; reflexivity);
      generalize dependent (if c then set_matches m s0 else s0)
  end.
  intros s1 Hw Hq. unfold connected. rewrite Hw.
  destruct (bool_decide (is_Some (wsUsers s !! R))); cbn [negb]; frame.
  - rewrite Hq. now rewrite app_nil_r.
  - now rewrite Hq.
Qed.

Lemma update_Forall2 (tbl : list Match.t) (crit : Match.t -> bool)
  (set : Match.t -> Match.t) :
  Forall2 (fun old new : Match.t => new = (if crit old then set old else old))
          tbl (Match.update tbl crit set).
Proof.
  unfold Match.update. induction tbl as [|m tbl IH]; simpl; constructor; auto.
Qed.

(** C7.  When the recipient R is connected and R's focused peer is the
    sender S, a message from S to R is written to R's live socket, no
    push-notification job is queued, and the Match table -- R's read flag
    included -- is left as it was. *)
Theorem C7_focused_recipient_live_delivery (S R : UserId) (text : string) (now : Z)
  (e : WsEntry) (s : State) :
  wsUsers s !! R = Some e ->
  openChatUserId e = Some S ->
  let m := Message.mk S R text now in
  let s' := snd (handle (PostMessage S R text now) s) in
  fst (handle (PostMessage S R text now) s) = MessageSent m
  /\ messages s' = messages s ++ [m]
  /\ sent s' = sent s ++ [(ws e, NewMessage m)]
  /\ pushQueue s' = pushQueue s
  /\ matches s' = matches s.
Proof.
  intros He Hfocus m s'. subst s'. cbn [handle].
  destruct (post_message_reply S R text now s) as (Hr & Hm & _).
  destruct (post_message_connected S R text now e s He) as (Hs & Hq & Ht).
  rewrite bool_decide_eq_true_2 in Ht by exact Hfocus.
  auto.
Qed.

(** C6 (amended).  When the recipient R is connected but R's focused peer is
    not the sender S, a message from S to R is written to R's live socket and
    the unread marker is persisted: on every active Match row of the
    canonical pair, the read flag on R's side becomes false and nothing else
    changes; the other rows are untouched.  No push-notification job is
    queued in this case: a job -- whose preview is the first 100 characters
    of the text -- is queued exactly when R has no live connection. *)
Theorem C6_unfocused_recipient_marked_unread (S R : UserId) (text : string) (now : Z)
  (e : WsEntry) (s : State) :
  wsUsers s !! R = Some e ->
  openChatUserId e <> Some S ->
  let m := Message.mk S R text now in
  let s' := snd (handle (PostMessage S R text now) s) in
  sent s' = sent s ++ [(ws e, NewMessage m)]
  /\ pushQueue s' = pushQueue s
  /\ Forall2
       (fun old new =>
          Match.userId1 new = Match.userId1 old
          /\ Match.userId2 new = Match.userId2 old
          /\ Match.unmatched new = Match.unmatched old
          /\ read_of_other R new = read_of_other R old
          /\ if Match.is_pair (getUserIdOrder S R) old && negb (Match.unmatched old)
             then read_of R new = false
             else new = old)
       (matches s) (matches s')
  /\ (forall s0,
        pushQueue (snd (handle (PostMessage S R text now) s0))
        = pushQueue s0
          ++ (if connected R s0 then []
              else [mkPushJob R S PushMessage (Some (slice0 100 text))]))
  /\ (String.length (slice0 100 text) <= 100)%nat.
Proof.
  intros He Hfocus m s'. subst s'. cbn [handle].
  destruct (post_message_connected S R text now e s He) as (Hs & Hq & Ht).
  rewrite bool_decide_eq_false_2 in Ht by exact Hfocus.
  split; [exact Hs|]. split; [exact Hq|]. split.
  - rewrite Ht. eapply Forall2_impl; [apply update_Forall2|].
    intros old new ->. cbn beta.
    replace (Bool.eqb (Match.unmatched old) false) with (negb (Match.unmatched old))
      by (destruct (Match.unmatched old); reflexivity).
    destruct (Match.is_pair (getUserIdOrder S R) old && negb (Match.unmatched old))
      eqn:Ep; [|repeat split; reflexivity].
    apply andb_true_iff in Ep as [Ep _].
    unfold Match.is_pair in Ep. apply andb_true_iff in Ep as [E1 _].
    apply bool_decide_eq_true in E1.
    unfold read_of, read_of_other.
    destruct (bool_decide (Order.userId1 (getUserIdOrder S R) = R)) eqn:E;
      cbn [Match.set_read1 Match.set_read2 Match.userId1 Match.userId2
           Match.read1 Match.read2 Match.unmatched];
      rewrite E1, E; auto.
  - split; [|apply slice0_length].
    intros s0. apply post_message_queue.
Qed.

(** ** Conversation fetches *)

Lemma get_messages_matches me u cursor s :
  matches (snd (get_messages me u cursor s))
  = if truthy cursor then matches s
    else Match.update (matches s)
           (Match.is_pair (getUserIdOrder u me))
           (if bool_decide (Order.userId1 (getUserIdOrder u me) = me)
            then Match.set_read1 true else Match.set_read2 true).
Proof.
  unfold get_messages, query_resolves.
  destruct cursor as [c|]; [destruct (truthy (Some c)); [destruct (Date_valid c)|]|];
    cbn [negb snd truthy]; try destruct (wsUsers s !! me); reflexivity.
Qed.

Lemma query_resolves_bounds cursor :
  (forall c, cursor = Some c -> -8640000000000000 <= c <= 8640000000000000) ->
  query_resolves cursor = true.
Proof.
  intros H. destruct cursor as [c|]; [|reflexivity].
  unfold query_resolves, Date_valid. specialize (H c eq_refl).
  destruct (truthy (Some c)); [|reflexivity].
  apply andb_true_iff. split; apply Z.leb_le; lia.
Qed.



Lemma truthy_false cursor : truthy cursor = false <-> cursor = None \/ cursor = Some 0.
Proof.
  destruct cursor as [c|]; simpl.
  - rewrite negb_false_iff, Z.eqb_eq. split; [intros ->; auto|].
    intros [?|[=]]; congruence.
  - split; auto.
Qed.

(** C9 (amended).  A conversation fetch without a cursor -- or with the
    cursor 0, which the handler takes for an absent one and answers with the
    newest page -- sets the fetching user's read flag to true (clearing the
    unread marker) on the Match row of the canonical pair: [read1] when the
    user is the row's [userId1], [read2] otherwise; the flag of the other
    side and all other rows are unchanged.  A fetch with a non-zero cursor
    leaves the Match table, hence both read flags, unchanged. *)
Theorem C9_newest_page_marks_read (me u : UserId) (cursor : option Z) (s : State) :
  let s' := snd (handle (GetMessages me u cursor) s) in
  (cursor = None \/ cursor = Some 0 ->
   Forall2
     (fun old new =>
        Match.userId1 new = Match.userId1 old
        /\ Match.userId2 new = Match.userId2 old
        /\ Match.unmatched new = Match.unmatched old
        /\ read_of_other me new = read_of_other me old
        /\ if Match.is_pair (getUserIdOrder u me) old
           then read_of me new = true
           else new = old)
     (matches s) (matches s'))
  /\ (forall c, cursor = Some c -> c <> 0 -> matches s' = matches s).
Proof.
  intros s'. subst s'. cbn [handle]. rewrite get_messages_matches. split.
  - intros Hc. apply truthy_false in Hc. rewrite Hc.
    eapply Forall2_impl; [apply update_Forall2|].
    intros old new ->. cbn beta.
    destruct (Match.is_pair (getUserIdOrder u me) old) eqn:Ep;
      [|repeat split; reflexivity].
    unfold Match.is_pair in Ep. apply andb_true_iff in Ep as [E1 _].
    apply bool_decide_eq_true in E1.
    unfold read_of, read_of_other.
    destruct (bool_decide (Order.userId1 (getUserIdOrder u me) = me)) eqn:E;
      cbn [Match.set_read1 Match.set_read2 Match.userId1 Match.userId2
           Match.read1 Match.read2 Match.unmatched];
      rewrite E1, E; auto.
  - intros c -> Hc. simpl. apply Z.eqb_neq in Hc. now rewrite Hc.
Qed.

Lemma insert_desc_perm m l : Permutation (insert_desc m l) (m :: l).
Proof.
  induction l as [|x l IH]; simpl; [reflexivity|].
  destruct (Message.createdAt x <=? Message.createdAt m); [reflexivity|].
  rewrite IH. apply perm_swap.
Qed.

Lemma orderBy_perm l : Permutation (orderBy_createdAt_DESC l) l.
Proof.
  induction l as [|x l IH]; simpl; [reflexivity|].
  rewrite insert_desc_perm. now constructor.
Qed.

Lemma insert_desc_sorted m l : newest_first l -> newest_first (insert_desc m l).
Proof.
  unfold newest_first. induction 1 as [|x l Hs IH Hx]; simpl.
  - repeat constructor.
  - destruct (Message.createdAt x <=? Message.createdAt m) eqn:E.
    + apply Z.leb_le in E. constructor; [now constructor|].
      constructor; [exact E|].
      eapply List.Forall_impl; [|exact Hx]. cbn beta. intros y Hy. lia.
    + apply Z.leb_gt in E. constructor; [exact IH|].
      rewrite (insert_desc_perm m l). constructor; [lia|exact Hx].
Qed.

Lemma orderBy_sorted l : newest_first (orderBy_createdAt_DESC l).
Proof.
  induction l as [|x l IH]; simpl; [constructor|]. now apply insert_desc_sorted.
Qed.

Lemma In_firstn {A} (n : nat) (l : list A) (x : A) : In x (firstn n l) -> In x l.
Proof.
  rewrite <- !list_elem_of_In. apply subseteq_take.
Qed.

Lemma newest_first_firstn n l : newest_first l -> newest_first (firstn n l).
Proof.
  unfold newest_first. intros H. revert n.
  induction H as [|x l Hs IH Hx]; intros [|n]; simpl; try constructor; auto.
  apply List.Forall_forall. intros y Hy. apply In_firstn in Hy.
  rewrite List.Forall_forall in Hx. auto.
Qed.

Lemma selected_In u me cursor tbl m :
  In m (selected u me cursor tbl) <->
  In m tbl
  /\ ((Message.senderId m = me /\ Message.recipientId m = u)
      \/ (Message.senderId m = u /\ Message.recipientId m = me))
  /\ (forall c, cursor = Some c -> c <> 0 -> Message.createdAt m < c).
Proof.
  unfold selected, between. rewrite List.filter_In.
  rewrite andb_true_iff, orb_true_iff, !andb_true_iff, !bool_decide_eq_true.
  split; intros (Hin & Hb & Hc); (split; [exact Hin|]); (split; [tauto|]).
  - intros c -> Hne. simpl in Hc. apply Z.eqb_neq in Hne. rewrite Hne in Hc.
    simpl in Hc. now apply Z.ltb_lt.
  - destruct cursor as [c|]; [|reflexivity]. simpl.
    destruct (Z.eqb_spec c 0) as [->|Hne]; simpl; [reflexivity|].
    apply Z.ltb_lt. now apply Hc.
Qed.

Lemma getMany_page u me cursor tbl :
  let sorted := orderBy_createdAt_DESC (selected u me cursor tbl) in
  firstn 20 (getMany u me cursor tbl) = firstn 20 sorted
  /\ (Nat.eqb (length (getMany u me cursor tbl)) 21 = true
      <-> (21 <= length (selected u me cursor tbl))%nat).
Proof.
  intros sorted. unfold getMany. fold sorted. split.
  - rewrite take_take. reflexivity.
  - rewrite length_take, Nat.eqb_eq.
    unfold sorted. rewrite (Permutation_length (orderBy_perm _)). lia.
Qed.

Lemma selected_filter u me cursor tbl :
  selected u me cursor tbl
  = List.filter
      (fun m =>
         ((bool_decide (Message.senderId m = me) && bool_decide (Message.recipientId m = u))
          || (bool_decide (Message.senderId m = u) && bool_decide (Message.recipientId m = me)))
         && match cursor with
            | Some c => (c =? 0) || (Message.createdAt m <? c)
            | None => true
            end)
      tbl.
Proof.
  unfold selected, between. apply List.filter_ext. intros m.
  f_equal.
  - destruct (bool_decide (Message.senderId m = me)),
      (bool_decide (Message.recipientId m = u)),
      (bool_decide (Message.senderId m = u)),
      (bool_decide (Message.recipientId m = me)); reflexivity.
  - destruct cursor as [c|]; [|reflexivity]. simpl. now destruct (c =? 0).
Qed.

(** C10 (amended).  For a conversation fetch between [me] and [u] whose
    cursor, if given, is a time value that [new Date] accepts (at most
    8.64e15 ms from the epoch either way): the page answered has at most 20
    messages, newest first; it is the head of a newest-first list of the
    messages exchanged between the two users that, when a non-zero cursor is
    given, are strictly older than the cursor (the cursor 0 is taken for an
    absent one and filters nothing); [hasMore] is true exactly when at least
    21 such messages exist. *)
Theorem C10_conversation_page (me u : UserId) (cursor : option Z) (s : State) :
  (forall c, cursor = Some c -> -8640000000000000 <= c <= 8640000000000000) ->
  let such (m : Message.t) : bool :=
    ((bool_decide (Message.senderId m = me) && bool_decide (Message.recipientId m = u))
     || (bool_decide (Message.senderId m = u) && bool_decide (Message.recipientId m = me)))
    && match cursor with
       | Some c => (c =? 0) || (Message.createdAt m <? c)
       | None => true
       end in
  exists page hasMore rest,
    fst (handle (GetMessages me u cursor) s) = MessagesPage page hasMore
    /\ (length page <= 20)%nat
    /\ newest_first (page ++ rest)
    /\ (rest <> [] -> length page = 20%nat)
    /\ Permutation (page ++ rest) (List.filter such (messages s))
    /\ (forall m,
          In m page ->
          In m (messages s)
          /\ ((Message.senderId m = me /\ Message.recipientId m = u)
              \/ (Message.senderId m = u /\ Message.recipientId m = me))
          /\ (forall c, cursor = Some c -> c <> 0 -> Message.createdAt m < c))
    /\ (hasMore = true <-> (21 <= length (List.filter such (messages s)))%nat).
Proof.
  intros Hdate such.
  pose (sorted := orderBy_createdAt_DESC (selected u me cursor (messages s))).
  destruct (getMany_page u me cursor (messages s)) as [Hpage Hmore].
  fold sorted in Hpage.
  assert (Hsel : selected u me cursor (messages s) = List.filter such (messages s))
    by apply selected_filter.
  exists (firstn 20 sorted), (Nat.eqb (length (getMany u me cursor (messages s))) 21),
         (skipn 20 sorted).
  rewrite firstn_skipn.
  split.
  { cbn [handle]. unfold get_messages.
    rewrite (query_resolves_bounds cursor Hdate). cbn [negb fst].
    now rewrite Hpage. }
  split; [apply firstn_le_length|].
  split; [apply orderBy_sorted|].
  split.
  { intros Hrest. rewrite length_take.
    destruct (Nat.le_gt_cases 20 (length sorted)) as [?|Hlt]; [lia|].
    exfalso. apply Hrest. apply drop_ge. lia. }
  split; [rewrite <- Hsel; apply orderBy_perm|].
  split.
  { intros m Hm. apply In_firstn in Hm. apply selected_In.
    revert Hm. apply Permutation_in, orderBy_perm. }
  rewrite Hmore, Hsel. reflexivity.
Qed.

(** ** The handshake *)

Lemma upgrade_good accessToken refreshToken accounts uid :
  upgrade accessToken refreshToken accounts = Good uid ->
  exists a r,
    accessToken = QString a /\ refreshToken = QString r /\ a <> "" /\ r <> ""
    /\ ((exists data, verify a ACCESS_TOKEN_SECRET = Some data
                      /\ Token.userId data = uid)
        \/ (verify a ACCESS_TOKEN_SECRET = None
            /\ exists data user,
                 verify r REFRESH_TOKEN_SECRET = Some data
                 /\ Token.userId data = uid
                 /\ accounts !! uid = Some user
                 /\ Token.tokenVersion data = Some (User.tokenVersion user))).
Proof.
  unfold upgrade.
  destruct accessToken as [|a|la], refreshToken as [|r|lr];
    cbn [falsy typeof_string negb orb]; rewrite ?orb_true_r; try discriminate.
  destruct (bool_decide (a = "")) eqn:Ea; [discriminate|].
  destruct (bool_decide (r = "")) eqn:Er; [discriminate|].
  apply bool_decide_eq_false in Ea, Er. cbn [orb].
  intros H. exists a, r. repeat (split; [first [reflexivity|assumption]|]).
  destruct (verify a ACCESS_TOKEN_SECRET) as [data|] eqn:Va.
  - left. exists data. split; [reflexivity|]. congruence.
  - right. split; [reflexivity|].
    destruct (verify r REFRESH_TOKEN_SECRET) as [data|] eqn:Vr; [|discriminate].
    destruct (accounts !! Token.userId data) as [user|] eqn:Hu; [|discriminate].
    destruct (bool_decide (Some (User.tokenVersion user) ≠ Token.tokenVersion data))
      eqn:Hv; [discriminate|].
    apply bool_decide_eq_false in Hv. apply dec_stable in Hv.
    injection H as <-. exists data, user. auto.
Qed.

(** C4.  A connection upgrade whose access credential is present but does not
    verify (an expired one, say), whose refresh credential verifies, whose
    subject exists, and whose stored [tokenVersion] equals the embedded one,
    is accepted: the upgrade is run for the refresh credential's subject id,
    and the registry binds that id (ids of accounts are non-empty) to the new
    socket. *)
Theorem C4_refresh_credential_accepted (a r : string) (data : Token.t)
  (user : User.t) (w : WebSocket) (s : State) :
  a <> "" ->
  r <> "" ->
  verify a ACCESS_TOKEN_SECRET = None ->
  verify r REFRESH_TOKEN_SECRET = Some data ->
  users s !! Token.userId data = Some user ->
  Token.tokenVersion data = Some (User.tokenVersion user) ->
  Token.userId data <> "" ->
  let res := handle (WsUpgrade (QString a) (QString r) w) s in
  upgrade (QString a) (QString r) (users s) = Good (Token.userId data)
  /\ fst res = Upgraded (Token.userId data)
  /\ wsUsers (snd res) !! Token.userId data = Some (mkWsEntry w None)
  /\ (forall k, k <> Token.userId data -> wsUsers (snd res) !! k = wsUsers s !! k).
Proof.
  intros Ha Hr Va Vr Hu Hv Hid res.
  assert (Hup : upgrade (QString a) (QString r) (users s) = Good (Token.userId data)).
  { unfold upgrade. cbn [falsy typeof_string negb].
    rewrite (bool_decide_eq_false_2 (a = "")) by exact Ha.
    rewrite (bool_decide_eq_false_2 (r = "")) by exact Hr.
    cbn [orb]. rewrite Va, Vr, Hu.
    rewrite bool_decide_eq_false_2; [reflexivity|].
    intros Hne. apply Hne. now rewrite Hv. }
  subst res. cbn [handle]. unfold on_upgrade. rewrite Hup. cbn [fst snd].
  unfold on_connection. rewrite bool_decide_eq_false_2 by exact Hid.
  cbn [wsUsers set_wsUsers].
  split; [reflexivity|]. split; [reflexivity|]. split.
  - apply lookup_insert_eq.
  - intros k Hk. apply lookup_insert_ne. congruence.
Qed.

(** C5.  A connection upgrade that fails authentication -- [accessToken] or
    [refreshToken] missing, empty or not a string; neither credential
    verifying; or, the access credential not verifying, a refresh credential
    whose subject no longer exists or whose embedded [tokenVersion] differs
    from the stored one -- is answered 401 on the raw socket and changes
    nothing: the upgrade is not run and the registry gets no entry.
    Conversely an upgrade is run only for the subject of a credential that
    verified (and, for a refresh credential, was not revoked). *)
Theorem C5_failed_authentication_rejected (accessToken refreshToken : QueryValue)
  (w : WebSocket) (s : State) :
  (falsy accessToken = true \/ falsy refreshToken = true
   \/ typeof_string accessToken = false \/ typeof_string refreshToken = false
   \/ exists a r,
        accessToken = QString a /\ refreshToken = QString r
        /\ verify a ACCESS_TOKEN_SECRET = None
        /\ (verify r REFRESH_TOKEN_SECRET = None
            \/ exists data,
                 verify r REFRESH_TOKEN_SECRET = Some data
                 /\ (users s !! Token.userId data = None
                     \/ exists user,
                          users s !! Token.userId data = Some user
                          /\ Token.tokenVersion data <> Some (User.tokenVersion user)))) ->
  handle (WsUpgrade accessToken refreshToken w) s = (Unauthorized, s)
  /\ (forall a' r' w' s',
        handle (WsUpgrade a' r' w') s' = (Unauthorized, s')
        \/ exists uid a r,
             fst (handle (WsUpgrade a' r' w') s') = Upgraded uid
             /\ a' = QString a /\ r' = QString r /\ a <> "" /\ r <> ""
             /\ ((exists data, verify a ACCESS_TOKEN_SECRET = Some data
                               /\ Token.userId data = uid)
                 \/ (verify a ACCESS_TOKEN_SECRET = None
                     /\ exists data user,
                          verify r REFRESH_TOKEN_SECRET = Some data
                          /\ Token.userId data = uid
                          /\ users s' !! uid = Some user
                          /\ Token.tokenVersion data = Some (User.tokenVersion user)))).
Proof.
  intros Hfail.
  assert (Hbad : forall a' r' w' s',
             upgrade a' r' (users s') = Bad ->
             handle (WsUpgrade a' r' w') s' = (Unauthorized, s')).
  { intros a' r' w' s' H. cbn [handle]. unfold on_upgrade. now rewrite H. }
  split.
  - apply Hbad. unfold upgrade.
    destruct accessToken as [|a|la], refreshToken as [|r|lr];
      cbn [falsy typeof_string negb orb] in *; rewrite ?orb_true_r;
      try reflexivity.
    destruct (bool_decide (a = "")) eqn:Ea; [reflexivity|].
    destruct (bool_decide (r = "")) eqn:Er; [reflexivity|].
    cbn [orb].
    destruct Hfail as [H|[H|[H|[H|(a' & r' & E1 & E2 & Va & Hr)]]]];
      try discriminate.
    injection E1 as <-. injection E2 as <-. rewrite Va.
    destruct Hr as [->|(data & -> & [->|(user & -> & Hv)])]; try reflexivity.
    rewrite bool_decide_eq_true_2; [reflexivity|congruence].
  - intros a' r' w' s'.
    destruct (upgrade a' r' (users s')) as [uid|] eqn:Hup; [right|left; now apply Hbad].
    destruct (upgrade_good _ _ _ _ Hup) as (a & r & Ea & Er & Ha & Hr & Hv).
    exists uid, a, r. cbn [handle]. unfold on_upgrade. rewrite Hup.
    cbn [fst]. auto 10.
Qed.

(** ** Further properties of the handlers *)

Lemma frame_to_same key v s s' :
  wsUsers s' = wsUsers s -> frame_to key v s' = frame_to key v s.
Proof. unfold frame_to. now intros ->. Qed.

Lemma sent_wsSend_frame key v s : sent (wsSend key v s) = sent s ++ frame_to key v s.
Proof.
  unfold wsSend, frame_to. destruct (wsUsers s !! key); simpl; [reflexivity|].
  now rewrite app_nil_r.
Qed.

Lemma connected_same key s s' :
  wsUsers s' = wsUsers s -> connected key s' = connected key s.
Proof. unfold connected. now intros ->. Qed.

Lemma State_ext (s1 s2 : State) :
  views s1 = views s2 -> matches s1 = matches s2 -> messages s1 = messages s2 ->
  users s1 = users s2 -> wsUsers s1 = wsUsers s2 -> sent s1 = sent s2 ->
  pushQueue s1 = pushQueue s2 -> s1 = s2.
Proof. destruct s1, s2; simpl; congruence. Qed.

Ltac frame_all :=
  repeat (frame; rewrite ?sent_wsSend_frame; unfold frame_to, connected).

(** The state after an accepted /view, field by field. *)
Lemma post_view_accepted me u l s :
  existsb (View.same_pair (View.mk me u l)) (views s) = false ->
  let matched := l && likes u me s in
  let ids := getUserIdOrder u me in
  post_view None me u l s
  = (ViewJson matched true,
     mkState
       (views s ++ [View.mk me u l])
       (if matched then Match.insert defaults (matches s) ids else matches s)
       (messages s)
       (if l
        then alter (fun a => User.mk (User.tokenVersion a) (User.numLikes a + 1))
                   u (users s)
        else users s)
       (wsUsers s)
       (sent s
        ++ (if matched
            then frame_to u (NewMatch ids) s ++ frame_to me (NewMatch ids) s
            else [])
        ++ (if l then frame_to u NewLike s else []))
       (pushQueue s
        ++ (if matched && negb (connected u s)
            then [mkPushJob u me PushMatch None] else []))).
Proof.
  intros Hdup matched ids. subst matched ids.
  unfold post_view, View.insert. rewrite Hdup.
  destruct l; lazy beta iota zeta.
  - rewrite (findOne_likes s u me).
    destruct (likes u me s); lazy beta iota zeta; cbn [andb]; f_equal.
    + apply State_ext; frame_all;
        destruct (bool_decide (is_Some (wsUsers s !! u))); cbn [negb]; frame_all;
        rewrite ?app_nil_r, <- ?app_assoc; reflexivity.
    + apply State_ext; frame_all; rewrite ?app_nil_r; reflexivity.
  - cbn [andb]. f_equal. apply State_ext; frame_all; rewrite ?app_nil_r; reflexivity.
Qed.

Lemma connected_set_matches key tbl s :
  connected key (set_matches tbl s) = connected key s.
Proof. reflexivity. Qed.

(** The state after POST /message, field by field. *)
Lemma post_message_state S R txt now s :
  let m := Message.mk S R txt now in
  let o := getUserIdOrder S R in
  snd (post_message S R txt now s)
  = mkState
      (views s)
      (if negb (connected R s) || negb (bool_decide (focusedPeer R s = Some S))
       then Match.update (matches s)
              (fun r => Match.is_pair o r && Bool.eqb (Match.unmatched r) false)
              (if bool_decide (Order.userId1 o = R)
               then Match.set_read1 false else Match.set_read2 false)
       else matches s)
      (messages s ++ [m])
      (users s)
      (wsUsers s)
      (sent s ++ frame_to R (NewMessage m) s)
      (pushQueue s
       ++ (if connected R s then []
           else [mkPushJob R S PushMessage (Some (slice0 100 txt))])).
Proof.
  intros m o. subst o. unfold post_message.
  cbn [snd Message.recipientId Message.text]. fold m.
  set (s1 := wsSend R (NewMessage m) (set_messages (messages s ++ [m]) s)).
  assert (Hc1 : connected R s1 = connected R s)
    by (unfold s1; rewrite connected_wsSend; reflexivity).
  assert (Hf1 : focusedPeer R s1 = focusedPeer R s)
    by (unfold focusedPeer, s1; rewrite wsUsers_wsSend; reflexivity).
  rewrite Hc1, Hf1.
  destruct (negb (connected R s) || negb (bool_decide (focusedPeer R s = Some S)));
    rewrite ?connected_set_matches, Hc1;
    destruct (connected R s); cbn [negb];
    apply State_ext; unfold s1; frame_all; rewrite ?app_nil_r; reflexivity.
Qed.

(** The state after a conversation fetch, field by field. *)
Lemma get_messages_state me u cursor s :
  let o := getUserIdOrder u me in
  snd (get_messages me u cursor s)
  = if query_resolves cursor then
      mkState
        (views s)
        (if truthy cursor then matches s
         else Match.update (matches s) (Match.is_pair o)
                (if bool_decide (Order.userId1 o = me)
                 then Match.set_read1 true else Match.set_read2 true))
        (messages s)
        (users s)
        (match wsUsers s !! me with
         | Some e => <[me := mkWsEntry (ws e) (Some u)]> (wsUsers s)
         | None => wsUsers s
         end)
        (sent s)
        (pushQueue s)
    else s.
Proof.
  intros o. subst o. unfold get_messages.
  destruct (query_resolves cursor); cbn [negb snd]; [|reflexivity].
  destruct (truthy cursor); cbn [negb]; destruct (wsUsers s !! me);
    apply State_ext; reflexivity.
Qed.

(** The state after POST /unmatch, field by field. *)
Lemma post_unmatch_state me u s :
  snd (post_unmatch me u s)
  = mkState (views s) (Match.delete (matches s) (getUserIdOrder me u))
            (messages s) (users s) (wsUsers s)
            (sent s ++ frame_to u (Unmatch me) s) (pushQueue s).
Proof.
  unfold post_unmatch. cbn [snd]. apply State_ext; frame_all; reflexivity.
Qed.

(** POST /report: what it answers and the state it leaves. *)
Lemma post_report_state fault me u k s :
  post_report fault me u k s
  = if bool_decide (k = "unmatch") then (OkTrue, snd (post_unmatch me u s))
    else if bool_decide (k = "reject") then
      match View.insert fault (views s) (View.mk me u false) with
      | inl err => (Thrown err, s)
      | inr views' => (OkTrue, set_views views' s)
      end
    else (OkTrue, s).
Proof.
  unfold post_report, post_unmatch. cbn [snd].
  destruct (bool_decide (k = "unmatch")) eqn:Hk; [|reflexivity].
  apply bool_decide_eq_true in Hk. subst k.
  now rewrite bool_decide_eq_false_2 by discriminate.
Qed.

Lemma post_view_refused fault me u l s :
  existsb (View.same_pair (View.mk me u l)) (views s) = true \/ fault <> None ->
  snd (post_view fault me u l s) = s.
Proof.
  intros H.
  destruct (post_view_cases fault me u l s)
    as [(Hs & _)|[(Hs & _)|(Hf & Hdup & _)]]; try exact Hs.
  destruct H; congruence.
Qed.

(** POST /view either leaves the state alone or is accepted. *)
Lemma post_view_state_cases fault me u l s :
  snd (post_view fault me u l s) = s
  \/ (fault = None
      /\ existsb (View.same_pair (View.mk me u l)) (views s) = false).
Proof.
  destruct fault as [e|]; [left; apply post_view_refused; right; discriminate|].
  destruct (existsb (View.same_pair (View.mk me u l)) (views s)) eqn:Hdup.
  - left. apply post_view_refused. now left.
  - right. auto.
Qed.

Lemma on_upgrade_state a r w s :
  snd (on_upgrade a r w s) = s
  \/ exists uid, uid <> ""
                 /\ snd (on_upgrade a r w s)
                    = set_wsUsers (<[uid := mkWsEntry w None]> (wsUsers s)) s.
Proof.
  unfold on_upgrade. destruct (upgrade a r (users s)) as [uid|]; cbn [snd]; [|now left].
  unfold on_connection. destruct (bool_decide (uid = "")) eqn:E; [now left|].
  apply bool_decide_eq_false in E. right. eauto.
Qed.

Lemma frame_to_registered key v s w ev :
  In (w, ev) (frame_to key v s) -> exists e, wsUsers s !! key = Some e /\ ws e = w.
Proof.
  unfold frame_to. destruct (wsUsers s !! key) as [e|]; [|intros []].
  intros [[= <- <-]|[]]. eauto.
Qed.

Lemma likes_received_app x tbl row :
  likes_received x (tbl ++ [row])
  = (likes_received x tbl
     + (if bool_decide (View.targetId row = x) && View.liked row then 1 else 0))%nat.
Proof.
  unfold likes_received. rewrite List.filter_app, length_app. simpl.
  now destruct (bool_decide (View.targetId row = x) && View.liked row).
Qed.

(** What a request does to the accounts and to the likes they received. *)
Lemma handle_users r s :
  (users (snd (handle r s)) = users s
   /\ forall x, likes_received x (views (snd (handle r s)))
                = likes_received x (views s))
  \/ exists me u,
       views (snd (handle r s)) = views s ++ [View.mk me u true]
       /\ users (snd (handle r s))
          = alter (fun a => User.mk (User.tokenVersion a) (User.numLikes a + 1))
                  u (users s).
Proof.
  destruct r as [fault me u l|me rcp txt now|me u cursor|me u|fault me u k|a rf w|u t peer|u];
    cbn [handle snd].
  - destruct (post_view_state_cases fault me u l s) as [->|(-> & Hdup)]; [now left|].
    rewrite (post_view_accepted me u l s Hdup). cbn [snd views users].
    destruct l; [right; eauto|left].
    split; [reflexivity|]. intros x. rewrite likes_received_app. simpl.
    rewrite andb_false_r. lia.
  - left. rewrite post_message_state. auto.
  - left. rewrite get_messages_state. destruct (query_resolves cursor); auto.
  - left. rewrite post_unmatch_state. auto.
  - left. rewrite post_report_state, post_unmatch_state.
    destruct (bool_decide (k = "unmatch")); [auto|].
    destruct (bool_decide (k = "reject")); [|auto].
    destruct (view_insert_inv fault (views s) (View.mk me u false) _ eq_refl)
      as [[e ->]|(_ & _ & ->)]; cbn [snd]; [auto|].
    split; [reflexivity|]. intros x. cbn [views set_views].
    rewrite likes_received_app. simpl. rewrite andb_false_r. lia.
  - left. destruct (on_upgrade_state a rf w s) as [->|(uid & _ & ->)]; auto.
  - left. unfold on_message. destruct (bool_decide _); [|auto].
    destruct (wsUsers s !! u); auto.
  - left. auto.
Qed.

(** X1.  The like counter counts recorded likes: for an account that is
    there before and after a sequence of requests, [numLikes] has grown by
    exactly the number of likes (Views with [liked = true]) recorded for it
    in between -- dislikes, refused repeats and reports add nothing. *)
Theorem X1_like_counter_counts_recorded_likes
  (trace : list Request) (s : State) (u : UserId) (a a' : User.t) :
  users s !! u = Some a ->
  users (run trace s) !! u = Some a' ->
  User.numLikes a' - User.numLikes a
  = Z.of_nat (likes_received u (views (run trace s)))
    - Z.of_nat (likes_received u (views s)).
Proof.
  intros Ha. revert a'.
  induction trace as [|r t IH] using rev_ind; intros a' Ha'.
  - cbn in Ha'. rewrite Ha in Ha'. injection Ha' as <-. cbn. lia.
  - rewrite run_snoc in *.
    destruct (handle_users r (run t s)) as [(Eu & Hl)|(me & u' & Ev & Eu)].
    + rewrite Eu in Ha'. rewrite Hl. now apply IH.
    + rewrite Eu in Ha'. rewrite Ev, likes_received_app.
      cbn [View.targetId View.liked]. rewrite andb_true_r.
      destruct (decide (u' = u)) as [->|Hne].
      * rewrite lookup_alter_eq in Ha'.
        destruct (users (run t s) !! u) as [a1|] eqn:E1; [|discriminate Ha'].
        cbn in Ha'. injection Ha' as <-. specialize (IH a1 eq_refl).
        rewrite bool_decide_eq_true_2 by reflexivity. cbn [User.numLikes]. lia.
      * rewrite lookup_alter_ne in Ha' by exact Hne. specialize (IH a' Ha').
        rewrite bool_decide_eq_false_2 by exact Hne. lia.
Qed.

(** What a request does to the three tables that only grow. *)
Lemma handle_appends r s :
  (exists vs, views (snd (handle r s)) = views s ++ vs)
  /\ (exists ms, messages (snd (handle r s)) = messages s ++ ms).
Proof.
  assert (Hid : forall s' : State,
             views s' = views s -> messages s' = messages s ->
             (exists vs, views s' = views s ++ vs)
             /\ (exists ms, messages s' = messages s ++ ms)).
  { intros s' -> ->. split; exists []; now rewrite app_nil_r. }
  destruct r as [fault me u l|me rcp txt now|me u cursor|me u|fault me u k|a rf w|u t peer|u];
    cbn [handle snd].
  - destruct (post_view_state_cases fault me u l s) as [->|(-> & Hdup)]; [now apply Hid|].
    rewrite (post_view_accepted me u l s Hdup). cbn [snd views messages].
    split; [eauto|]. exists []. now rewrite app_nil_r.
  - rewrite post_message_state. cbn [views messages].
    split; [|eauto]. exists []. now rewrite app_nil_r.
  - rewrite get_messages_state. destruct (query_resolves cursor); now apply Hid.
  - rewrite post_unmatch_state. now apply Hid.
  - rewrite post_report_state, post_unmatch_state.
    destruct (bool_decide (k = "unmatch")); [now apply Hid|].
    destruct (bool_decide (k = "reject")); [|now apply Hid].
    destruct (view_insert_inv fault (views s) (View.mk me u false) _ eq_refl)
      as [[e ->]|(_ & _ & ->)]; cbn [snd]; [now apply Hid|].
    cbn [views messages set_views]. split; [eauto|].
    exists []. now rewrite app_nil_r.
  - destruct (on_upgrade_state a rf w s) as [->|(uid & _ & ->)]; now apply Hid.
  - unfold on_message. destruct (bool_decide _); [|now apply Hid].
    destruct (wsUsers s !! u); now apply Hid.
  - now apply Hid.
Qed.

Lemma run_appends (trace : list Request) (s : State) :
  (exists vs, views (run trace s) = views s ++ vs)
  /\ (exists ms, messages (run trace s) = messages s ++ ms).
Proof.
  revert s. induction trace as [|r t IH]; intros s; simpl.
  - split; exists []; now rewrite app_nil_r.
  - destruct (IH (snd (handle r s))) as [(vs & ->) (ms & ->)].
    destruct (handle_appends r s) as [(vs0 & ->) (ms0 & ->)].
    rewrite <- !app_assoc. eauto.
Qed.

(** X2.  No sequence of requests deletes or rewrites a View row or a Message
    row: both tables only grow at the end, so whatever was recorded stays
    recorded as it was, at the same position. *)
Theorem X2_views_and_messages_only_grow (trace : list Request) (s : State) :
  (exists vs, views (run trace s) = views s ++ vs)
  /\ (exists ms, messages (run trace s) = messages s ++ ms)
  /\ (forall i v, views s !! i = Some v -> views (run trace s) !! i = Some v)
  /\ (forall i m, messages s !! i = Some m -> messages (run trace s) !! i = Some m).
Proof.
  destruct (run_appends trace s) as [(vs & Hv) (ms & Hm)].
  split; [eauto|]. split; [eauto|]. split.
  - intros i v Hi. rewrite Hv. now apply lookup_app_l_Some.
  - intros i m Hi. rewrite Hm. now apply lookup_app_l_Some.
Qed.

(** What a request adds to the queue of notification jobs and to the frames
    written to sockets. *)
Lemma handle_deliveries r s :
  exists jobs frames,
    pushQueue (snd (handle r s)) = pushQueue s ++ jobs
    /\ sent (snd (handle r s)) = sent s ++ frames
    /\ (length jobs <= 1)%nat
    /\ (forall j, In j jobs -> connected (idToSendTo j) s = false
                               /\ connected (idToSendTo j) (snd (handle r s)) = false)
    /\ (forall w ev, In (w, ev) frames ->
          exists key e, wsUsers s !! key = Some e /\ ws e = w).
Proof.
  assert (Hid : forall s' : State,
             pushQueue s' = pushQueue s -> sent s' = sent s ->
             exists jobs frames,
               pushQueue s' = pushQueue s ++ jobs
               /\ sent s' = sent s ++ frames
               /\ (length jobs <= 1)%nat
               /\ (forall j, In j jobs -> connected (idToSendTo j) s = false
                                          /\ connected (idToSendTo j) s' = false)
               /\ (forall w ev, In (w, ev) frames ->
                     exists key e, wsUsers s !! key = Some e /\ ws e = w)).
  { intros s' -> ->. exists [], []. rewrite !app_nil_r. simpl.
    repeat split; try lia; contradiction. }
  destruct r as [fault me u l|me rcp txt now|me u cursor|me u|fault me u k|a rf w|u t peer|u];
    cbn [handle snd].
  - destruct (post_view_state_cases fault me u l s) as [->|(-> & Hdup)]; [now apply Hid|].
    rewrite (post_view_accepted me u l s Hdup). cbn [snd pushQueue sent].
    eexists _, _. split; [reflexivity|]. split; [reflexivity|]. split.
    { destruct (l && likes u me s && negb (connected u s)); simpl; lia. }
    split.
    + intros j Hj. unfold connected at 2. cbn [wsUsers]. fold (connected (idToSendTo j) s).
      destruct (l && likes u me s); cbn [andb] in Hj; [|contradiction].
      destruct (connected u s) eqn:Hc; cbn [negb] in Hj; [contradiction|].
      destruct Hj as [<-|[]]. auto.
    + intros w ev Hin. apply in_app_or in Hin as [Hin|Hin].
      * destruct (l && likes u me s); [|contradiction].
        apply in_app_or in Hin as [Hin|Hin];
          apply frame_to_registered in Hin as (e & He & Hw); eauto.
      * destruct l; [|contradiction].
        apply frame_to_registered in Hin as (e & He & Hw); eauto.
  - rewrite post_message_state. cbn [pushQueue sent].
    eexists _, _. split; [reflexivity|]. split; [reflexivity|]. split.
    { destruct (connected rcp s); simpl; lia. }
    split.
    + intros j Hj. unfold connected at 3. cbn [wsUsers]. fold (connected (idToSendTo j) s).
      destruct (connected rcp s) eqn:Hc; [contradiction|].
      destruct Hj as [<-|[]]. auto.
    + intros w ev Hin. apply frame_to_registered in Hin as (e & He & Hw). eauto.
  - rewrite get_messages_state. destruct (query_resolves cursor); now apply Hid.
  - rewrite post_unmatch_state. cbn [pushQueue sent].
    exists [], (frame_to u (Unmatch me) s). rewrite app_nil_r.
    split; [reflexivity|]. split; [reflexivity|]. split; [simpl; lia|].
    split; [intros j []|].
    intros w ev Hin. apply frame_to_registered in Hin as (e & He & Hw). eauto.
  - rewrite post_report_state, post_unmatch_state.
    destruct (bool_decide (k = "unmatch")).
    + cbn [snd pushQueue sent].
      exists [], (frame_to u (Unmatch me) s). rewrite app_nil_r.
      split; [reflexivity|]. split; [reflexivity|]. split; [simpl; lia|].
      split; [intros j []|].
      intros w ev Hin. apply frame_to_registered in Hin as (e & He & Hw). eauto.
    + destruct (bool_decide (k = "reject")); [|now apply Hid].
      destruct (View.insert fault (views s) (View.mk me u false)); now apply Hid.
  - destruct (on_upgrade_state a rf w s) as [->|(uid & _ & ->)]; now apply Hid.
  - unfold on_message. destruct (bool_decide _); [|now apply Hid].
    destruct (wsUsers s !! u); now apply Hid.
  - now apply Hid.
Qed.

(** X3.  A request queues at most one push-notification job, behind the jobs
    already queued, and only for a user who has no live connection, before
    and after the request: a connected user is never sent a push
    notification. *)
Theorem X3_push_jobs_only_for_offline_users (r : Request) (s : State) :
  exists jobs,
    pushQueue (snd (handle r s)) = pushQueue s ++ jobs
    /\ (length jobs <= 1)%nat
    /\ forall j, In j jobs ->
         connected (idToSendTo j) s = false
         /\ connected (idToSendTo j) (snd (handle r s)) = false.
Proof.
  destruct (handle_deliveries r s) as (jobs & frames & Hq & _ & Hlen & Hoff & _).
  exists jobs. auto.
Qed.

(** X4.  The frames a request writes are added behind those already written,
    and each goes to a socket that the registry holds at that moment: a
    frame for a user without an entry is dropped, never written elsewhere. *)
Theorem X4_frames_only_to_registered_sockets (r : Request) (s : State) :
  exists frames,
    sent (snd (handle r s)) = sent s ++ frames
    /\ forall w ev, In (w, ev) frames ->
         exists key e, wsUsers s !! key = Some e /\ ws e = w.
Proof.
  destruct (handle_deliveries r s) as (jobs & frames & _ & Hs & _ & _ & Hreg).
  exists frames. auto.
Qed.

(** ** The life of a match *)

Lemma ltb_asym (a b : string) : String.ltb a b = true -> String.ltb b a = false.
Proof.
  unfold String.ltb. rewrite (String.compare_antisym a b).
  destruct (String.compare b a); simpl; congruence.
Qed.

Lemma is_pair_canonical m a b :
  String.ltb (Match.userId1 m) (Match.userId2 m) = true ->
  (Match.userId1 m = a /\ Match.userId2 m = b)
  \/ (Match.userId1 m = b /\ Match.userId2 m = a) ->
  Match.is_pair (getUserIdOrder a b) m = true.
Proof.
  intros Hlt [[E1 E2]|[E1 E2]]; rewrite E1, E2 in Hlt;
    unfold getUserIdOrder, Match.is_pair.
  - rewrite Hlt. simpl. rewrite E1, E2.
    now rewrite !bool_decide_eq_true_2 by reflexivity.
  - rewrite (ltb_asym _ _ Hlt). simpl. rewrite E1, E2.
    now rewrite !bool_decide_eq_true_2 by reflexivity.
Qed.

Lemma is_pair_keys m a b :
  Match.is_pair (getUserIdOrder a b) m = true ->
  (Match.userId1 m = a /\ Match.userId2 m = b)
  \/ (Match.userId1 m = b /\ Match.userId2 m = a).
Proof.
  unfold Match.is_pair. rewrite andb_true_iff, !bool_decide_eq_true.
  destruct (getUserIdOrder_cases a b) as [[-> _]|[-> _]]; simpl; tauto.
Qed.

Lemma has_match_false a b s :
  has_match a b s = false <-> pair_rows a b (matches s) = [].
Proof.
  unfold has_match. destruct (pair_rows a b (matches s)); simpl; split;
    congruence.
Qed.

Lemma pair_rows_sym a b tbl : pair_rows a b tbl = pair_rows b a tbl.
Proof. unfold pair_rows. apply List.filter_ext. intros m. apply orb_comm. Qed.

Lemma pair_rows_deleted a b tbl :
  (forall m, In m tbl -> String.ltb (Match.userId1 m) (Match.userId2 m) = true) ->
  pair_rows a b (Match.delete tbl (getUserIdOrder a b)) = [].
Proof.
  intros Hcan. apply filter_nil_iff. intros m Hin.
  unfold Match.delete in Hin. apply List.filter_In in Hin as [Hin Hno].
  destruct (_ || _) eqn:E; [|reflexivity]. exfalso.
  rewrite orb_true_iff, !andb_true_iff, !bool_decide_eq_true in E.
  rewrite (is_pair_canonical m a b (Hcan m Hin) E) in Hno. discriminate.
Qed.

Lemma pair_rows_delete_other a b x y tbl :
  ~ ((a = x /\ b = y) \/ (a = y /\ b = x)) ->
  pair_rows a b (Match.delete tbl (getUserIdOrder x y)) = pair_rows a b tbl.
Proof.
  intros Hne. unfold pair_rows, Match.delete.
  induction tbl as [|m tbl IH]; simpl; [reflexivity|].
  destruct (Match.is_pair (getUserIdOrder x y) m) eqn:Ep; simpl.
  - apply is_pair_keys in Ep.
    destruct (_ || _) eqn:E; [|exact IH]. exfalso. apply Hne.
    rewrite orb_true_iff, !andb_true_iff, !bool_decide_eq_true in E.
    destruct Ep as [[<- <-]|[<- <-]], E as [[<- <-]|[<- <-]]; auto.
  - destruct (_ || _); [now rewrite IH|exact IH].
Qed.

(** ** Matches and likes, pair by pair *)





(** X5.  In a reachable state POST /unmatch answers ok and removes the Match
    row of the pair, whichever of the two asks; the rows of every other pair
    and all Views are left alone, nothing is queued for push, and the only
    frame written is the "unmatch" frame for the other party, if connected. *)
Theorem X5_unmatch_removes_the_match (me u : UserId) (s : State) :
  reachable s ->
  let s' := snd (handle (PostUnmatch me u) s) in
  fst (handle (PostUnmatch me u) s) = OkTrue
  /\ has_match me u s' = false
  /\ has_match u me s' = false
  /\ (forall a b, ~ ((a = me /\ b = u) \/ (a = u /\ b = me)) ->
                  pair_rows a b (matches s') = pair_rows a b (matches s))
  /\ views s' = views s
  /\ sent s' = sent s ++ frame_to u (Unmatch me) s
  /\ pushQueue s' = pushQueue s.
Proof.
  intros Hs s'. subst s'. destruct (reachable_Inv s Hs) as (_ & _ & Hcan & _).
  cbn [handle]. rewrite post_unmatch_state. cbn [matches views sent pushQueue].
  split; [reflexivity|].
  assert (Hgone : pair_rows me u (Match.delete (matches s) (getUserIdOrder me u)) = [])
    by (now apply pair_rows_deleted).
  split; [apply has_match_false; exact Hgone|].
  split; [apply has_match_false; cbn [matches]; now rewrite pair_rows_sym|].
  split; [|auto].
  intros a b Hne. now apply pair_rows_delete_other.
Qed.

(** One step keeps a pair apart once both have a View of each other and no
    Match row: any further View of either for the other is a duplicate. *)
Lemma apart_step a b r s :
  likes a b s = true -> likes b a s = true -> pair_rows a b (matches s) = [] ->
  likes a b (snd (handle r s)) = true
  /\ likes b a (snd (handle r s)) = true
  /\ pair_rows a b (matches (snd (handle r s))) = [].
Proof.
  intros Hab Hba Hno.
  destruct (handle_tables r s)
    as [(Ev & crit & set & Hk & Em)
       |[(Ev & _ & o & Em)
        |(me & u & l & _ & Hdup & Ev & Hm)]].
  - rewrite !(likes_views _ _ s _ Ev). split; [exact Hab|]. split; [exact Hba|].
    apply length_zero_iff_nil. rewrite Em, pair_rows_update by exact Hk.
    now rewrite Hno.
  - rewrite !(likes_views _ _ s _ Ev). split; [exact Hab|]. split; [exact Hba|].
    apply length_zero_iff_nil. pose proof (pair_rows_delete a b (matches s) o) as H.
    rewrite <- Em, Hno in H. simpl in H. lia.
  - split; [now rewrite (likes_app _ _ s _ _ Ev), Hab|].
    split; [now rewrite (likes_app _ _ s _ _ Ev), Hba|].
    destruct Hm as [(-> & _)|(_ & _ & _ & _ & ->)]; [exact Hno|].
    unfold Match.insert. rewrite pair_rows_app, Hno. cbn [app].
    apply filter_nil_iff. intros m [<-|[]]. cbn [Match.userId1 Match.userId2].
    destruct (_ || _) eqn:E; [|reflexivity]. exfalso.
    rewrite orb_true_iff, !andb_true_iff, !bool_decide_eq_true in E.
    assert (Hmu : likes me u s = true).
    { destruct (getUserIdOrder_cases u me) as [[Eo _]|[Eo _]];
        rewrite Eo in E; simpl in E;
        destruct E as [[<- <-]|[<- <-]]; assumption. }
    pose proof (likes_recorded me u l s Hmu). congruence.
Qed.

Lemma apart_run a b t s :
  likes a b s = true -> likes b a s = true -> pair_rows a b (matches s) = [] ->
  pair_rows a b (matches (run t s)) = [].
Proof.
  revert s. induction t as [|r t IH]; intros s Hab Hba Hno; simpl; [exact Hno|].
  destruct (apart_step a b r s Hab Hba Hno) as (H1 & H2 & H3). now apply IH.
Qed.

(** X6.  Unmatching is final: once two matched users are unmatched -- by
    POST /unmatch or by a report asking to unmatch, from either side -- no
    later sequence of requests gives them a Match row again, because their
    Views stay recorded and every further like between them is a duplicate. *)
Theorem X6_unmatched_pairs_never_match_again
  (a b x y : UserId) (fault : option Error) (r : Request) (trace : list Request)
  (s : State) :
  reachable s ->
  has_match a b s = true ->
  (x = a /\ y = b) \/ (x = b /\ y = a) ->
  r = PostUnmatch x y \/ r = PostReport fault x y "unmatch" ->
  has_match a b (run trace (snd (handle r s))) = false.
Proof.
  intros Hs Hm Hxy Hr. pose proof (reachable_Inv s Hs) as HI.
  destruct (match_backed a b s HI Hm) as [Hab Hba].
  destruct HI as (_ & _ & Hcan & _).
  assert (Hst : snd (handle r s) = snd (post_unmatch x y s)).
  { destruct Hr as [->| ->]; cbn [handle]; [reflexivity|].
    now rewrite post_report_state. }
  apply has_match_false. apply apart_run.
  - rewrite Hst, post_unmatch_state. exact Hab.
  - rewrite Hst, post_unmatch_state. exact Hba.
  - rewrite Hst, post_unmatch_state. cbn [matches].
    destruct Hxy as [[-> ->]|[-> ->]].
    + now apply pair_rows_deleted.
    + rewrite pair_rows_sym. now apply pair_rows_deleted.
Qed.

Lemma at_most_one {A} (l : list A) (x y : A) :
  (length l <= 1)%nat -> In x l -> In y l -> x = y.
Proof.
  destruct l as [|z [|z' l]]; simpl; intros Hlen Hx Hy; try lia; try contradiction.
  destruct Hx as [<-|[]], Hy as [<-|[]]. reflexivity.
Qed.

Lemma disliked_not_liked me u s :
  Inv s -> In (View.mk me u false) (views s) -> likes me u s = false.
Proof.
  intros (Hv & _) Hin. destruct (likes me u s) eqn:E; [|reflexivity]. exfalso.
  unfold likes in E. apply existsb_exists in E as (v & Hv' & Hp).
  apply andb_true_iff in Hp as [Hp Hl]. apply andb_true_iff in Hp as [H1 H2].
  apply bool_decide_eq_true in H1, H2.
  assert (Hx : In (View.mk me u false) (view_rows me u (views s))).
  { unfold view_rows. apply List.filter_In. split; [exact Hin|].
    unfold View.same_pair. simpl. now rewrite !bool_decide_eq_true_2 by reflexivity. }
  assert (Hy : In v (view_rows me u (views s))).
  { unfold view_rows. apply List.filter_In. split; [exact Hv'|].
    unfold View.same_pair. simpl. rewrite H1, H2.
    now rewrite !bool_decide_eq_true_2 by reflexivity. }
  pose proof (at_most_one _ _ _ (Hv me u) Hx Hy) as <-. discriminate.
Qed.

(** X7.  A dislike is final: once a View of [u] by [me] with [liked = false]
    is recorded (by a pass in /view or by a report asking to reject), [me]
    never likes [u] and the two never get a Match row, whatever requests
    follow. *)
Theorem X7_a_dislike_rules_out_a_match (me u : UserId) (trace : list Request)
  (s : State) :
  reachable s ->
  In (View.mk me u false) (views s) ->
  likes me u (run trace s) = false
  /\ has_match me u (run trace s) = false
  /\ has_match u me (run trace s) = false.
Proof.
  intros Hs Hin.
  assert (Hs' : reachable (run trace s)) by now apply reachable_run.
  pose proof (reachable_Inv _ Hs') as HI.
  assert (Hin' : In (View.mk me u false) (views (run trace s))).
  { destruct (run_appends trace s) as [(vs & ->) _].
    apply in_or_app. now left. }
  pose proof (disliked_not_liked me u _ HI Hin') as Hno.
  split; [exact Hno|].
  split; apply has_match_false.
  - apply no_pair_rows; auto.
  - rewrite pair_rows_sym. apply no_pair_rows; auto.
Qed.

Lemma rows_recorded me u l tbl :
  view_rows me u tbl <> [] -> existsb (View.same_pair (View.mk me u l)) tbl = true.
Proof.
  intros H. destruct (existsb _ tbl) eqn:E; [reflexivity|].
  now apply view_rows_fresh in E.
Qed.

Lemma view_recorded_after_reject me u s :
  view_rows me u (views (snd (handle (PostReport None me u "reject") s))) <> [].
Proof.
  cbn [handle]. rewrite post_report_state.
  rewrite bool_decide_eq_false_2 by discriminate.
  rewrite bool_decide_eq_true_2 by reflexivity.
  unfold View.insert.
  destruct (existsb (View.same_pair (View.mk me u false)) (views s)) eqn:Hdup;
    cbn [snd views set_views].
  - now apply (view_rows_recorded me u false).
  - unfold view_rows. rewrite List.filter_app. simpl.
    unfold View.same_pair at 2. simpl.
    rewrite !bool_decide_eq_true_2 by reflexivity. simpl.
    intros E. apply app_eq_nil in E as [_ E]. discriminate.
Qed.

(** X8.  A report asking to reject and a /view about the same target exclude
    each other, whatever is served in between.  After a /view of [u] by
    [me], the report is not answered ok: the insert of its dislike hits the
    uniqueness constraint, the handler rejects with that error, and nothing
    changes.  After the report, a /view of [u] by [me] is answered
    [{match: false, ok: false}]. *)
Theorem X8_reject_report_and_view_exclude_each_other
  (me u : UserId) (l : bool) (mid : list Request) (s0 : State) :
  (let s := run mid (snd (handle (PostView None me u l) s0)) in
   handle (PostReport None me u "reject") s = (Thrown View.duplicate_key, s))
  /\ (let s := run mid (snd (handle (PostReport None me u "reject") s0)) in
      handle (PostView None me u l) s = (ViewJson false false, s)).
Proof.
  split; intros s.
  - assert (Hrec : view_rows me u (views s) <> [])
      by (apply view_rows_run, view_recorded_after).
    cbn [handle]. rewrite post_report_state.
    rewrite bool_decide_eq_false_2 by discriminate.
    rewrite bool_decide_eq_true_2 by reflexivity.
    unfold View.insert. now rewrite (rows_recorded me u false _ Hrec).
  - apply repeated_view. apply view_rows_run, view_recorded_after_reject.
Qed.

(** ** Delivery *)

Lemma unread_marker_rows (S R : UserId) (tbl : list Match.t) :
  let o := getUserIdOrder S R in
  Forall2
    (fun old new =>
       Match.userId1 new = Match.userId1 old
       /\ Match.userId2 new = Match.userId2 old
       /\ Match.unmatched new = Match.unmatched old
       /\ read_of_other R new = read_of_other R old
       /\ if Match.is_pair o old && negb (Match.unmatched old)
          then read_of R new = false
          else new = old)
    tbl
    (Match.update tbl
       (fun r => Match.is_pair o r && Bool.eqb (Match.unmatched r) false)
       (if bool_decide (Order.userId1 o = R)
        then Match.set_read1 false else Match.set_read2 false)).
Proof.
  intros o. subst o. eapply Forall2_impl; [apply update_Forall2|].
  intros old new ->. cbn beta.
  replace (Bool.eqb (Match.unmatched old) false) with (negb (Match.unmatched old))
    by (destruct (Match.unmatched old); reflexivity).
  destruct (Match.is_pair (getUserIdOrder S R) old && negb (Match.unmatched old))
    eqn:Ep; [|repeat split; reflexivity].
  apply andb_true_iff in Ep as [Ep _].
  unfold Match.is_pair in Ep. apply andb_true_iff in Ep as [E1 _].
  apply bool_decide_eq_true in E1.
  unfold read_of, read_of_other.
  destruct (bool_decide (Order.userId1 (getUserIdOrder S R) = R)) eqn:E;
    cbn [Match.set_read1 Match.set_read2 Match.userId1 Match.userId2
         Match.read1 Match.read2 Match.unmatched];
    rewrite E1, E; auto.
Qed.

(** X9.  When the recipient R has no live connection, a message from S to R
    is stored, no frame is written, exactly one push-notification job is
    queued (for R, about S, of type message, with the first 100 characters
    of the text), and the unread marker is set: on every active Match row of
    the canonical pair R's read flag becomes false, nothing else changes. *)
Theorem X9_offline_recipient_gets_a_push_job (S R : UserId) (txt : string) (now : Z)
  (s : State) :
  wsUsers s !! R = None ->
  let m := Message.mk S R txt now in
  let s' := snd (handle (PostMessage S R txt now) s) in
  messages s' = messages s ++ [m]
  /\ sent s' = sent s
  /\ pushQueue s'
     = pushQueue s ++ [mkPushJob R S PushMessage (Some (slice0 100 txt))]
  /\ Forall2
       (fun old new =>
          Match.userId1 new = Match.userId1 old
          /\ Match.userId2 new = Match.userId2 old
          /\ Match.unmatched new = Match.unmatched old
          /\ read_of_other R new = read_of_other R old
          /\ if Match.is_pair (getUserIdOrder S R) old && negb (Match.unmatched old)
             then read_of R new = false
             else new = old)
       (matches s) (matches s').
Proof.
  intros Hoff m s'. subst s'. cbn [handle]. rewrite post_message_state.
  cbn [messages sent pushQueue matches].
  assert (Hc : connected R s = false).
  { unfold connected. rewrite Hoff. reflexivity. }
  rewrite Hc. cbn [negb orb]. unfold frame_to. rewrite Hoff, app_nil_r.
  repeat split; try reflexivity. apply unread_marker_rows.
Qed.

(** X10.  What a /view about a target not viewed before delivers.  A like
    answers [match] exactly when the target already likes the actor; the
    target is then sent "new-match" and the actor "new-match", both with the
    canonical ids, and in any case the target is sent "new-like" (each frame
    only if its addressee is connected); a push job of type match is queued
    iff a match formed and the target is not connected -- the actor never
    gets one.  A dislike answers ok and writes, queues and counts nothing. *)
Theorem X10_what_a_view_delivers (me u : UserId) (s : State) :
  view_rows me u (views s) = [] ->
  let ids := getUserIdOrder u me in
  let matched := likes u me s in
  let liked := snd (handle (PostView None me u true) s) in
  let passed := snd (handle (PostView None me u false) s) in
  fst (handle (PostView None me u true) s) = ViewJson matched true
  /\ sent liked
     = sent s
       ++ (if matched
           then frame_to u (NewMatch ids) s ++ frame_to me (NewMatch ids) s
           else [])
       ++ frame_to u NewLike s
  /\ pushQueue liked
     = pushQueue s
       ++ (if matched && negb (connected u s)
           then [mkPushJob u me PushMatch None] else [])
  /\ fst (handle (PostView None me u false) s) = ViewJson false true
  /\ sent passed = sent s
  /\ pushQueue passed = pushQueue s
  /\ matches passed = matches s
  /\ users passed = users s.
Proof.
  intros Hfresh ids matched liked passed. subst ids matched liked passed.
  cbn [handle].
  rewrite (post_view_accepted me u true s (no_rows_fresh me u true _ Hfresh)).
  rewrite (post_view_accepted me u false s (no_rows_fresh me u false _ Hfresh)).
  cbn [fst snd andb sent pushQueue matches users].
  rewrite !app_nil_r. auto 10.
Qed.

(** ** The registry *)

(** X11.  The registry is keyed by user, not by socket.  A second connection
    of a user takes over the entry and resets the focused peer; when the
    first socket then closes, its handler deletes the entry although the
    second socket is still open: from then on frames for the user are
    dropped and a message to the user queues a push job. *)
Theorem X11_close_of_a_replaced_socket_unregisters_the_user
  (u : UserId) (w1 w2 : WebSocket) (s : State) :
  u <> "" ->
  let s2 := on_connection w2 u (on_connection w1 u s) in
  let s3 := snd (handle (WsClose u) s2) in
  wsUsers s2 !! u = Some (mkWsEntry w2 None)
  /\ wsUsers s3 !! u = None
  /\ (forall v, wsSend u v s3 = s3)
  /\ (forall S txt now,
        let s4 := snd (handle (PostMessage S u txt now) s3) in
        sent s4 = sent s3
        /\ pushQueue s4
           = pushQueue s3 ++ [mkPushJob u S PushMessage (Some (slice0 100 txt))]).
Proof.
  intros Hu s2 s3.
  assert (H2 : wsUsers s2 !! u = Some (mkWsEntry w2 None)).
  { unfold s2, on_connection. rewrite bool_decide_eq_false_2 by exact Hu.
    cbn [wsUsers set_wsUsers]. apply lookup_insert_eq. }
  assert (H3 : wsUsers s3 !! u = None).
  { unfold s3. cbn [handle snd]. unfold on_close. cbn [wsUsers set_wsUsers].
    apply lookup_delete_eq. }
  split; [exact H2|]. split; [exact H3|]. split.
  - intros v. unfold wsSend. now rewrite H3.
  - intros S txt now s4. subst s4. cbn [handle]. rewrite post_message_state.
    cbn [sent pushQueue]. unfold frame_to, connected. rewrite H3, app_nil_r.
    auto.
Qed.


(** ** The handshake, access path *)

(** X13.  A connection upgrade whose access credential verifies is accepted
    for that credential's subject as soon as a refresh parameter is present:
    the refresh credential is not verified and the account is not looked up,
    so neither a revoked or invalid refresh credential nor a missing account
    stops it. *)
Theorem X13_valid_access_credential_is_enough (a r : string) (data : Token.t)
  (w : WebSocket) (s : State) :
  a <> "" ->
  r <> "" ->
  verify a ACCESS_TOKEN_SECRET = Some data ->
  upgrade (QString a) (QString r) (users s) = Good (Token.userId data)
  /\ fst (handle (WsUpgrade (QString a) (QString r) w) s) = Upgraded (Token.userId data)
  /\ (Token.userId data <> "" ->
      wsUsers (snd (handle (WsUpgrade (QString a) (QString r) w) s)) !! Token.userId data
      = Some (mkWsEntry w None)).
Proof.
  intros Ha Hr Va.
  assert (Hup : upgrade (QString a) (QString r) (users s) = Good (Token.userId data)).
  { unfold upgrade. cbn [falsy typeof_string negb].
    rewrite (bool_decide_eq_false_2 (a = "")) by exact Ha.
    rewrite (bool_decide_eq_false_2 (r = "")) by exact Hr.
    cbn [orb]. now rewrite Va. }
  split; [exact Hup|]. cbn [handle]. unfold on_upgrade. rewrite Hup.
  cbn [fst snd]. split; [reflexivity|].
  intros Hid. unfold on_connection. rewrite bool_decide_eq_false_2 by exact Hid.
  cbn [wsUsers set_wsUsers]. apply lookup_insert_eq.
Qed.

(** ** Conversations: sending, then fetching *)

Lemma get_messages_reply me u cursor s :
  query_resolves cursor = true ->
  fst (get_messages me u cursor s)
  = MessagesPage (firstn 20 (getMany u me cursor (messages s)))
                 (Nat.eqb (length (getMany u me cursor (messages s))) 21).
Proof. unfold get_messages. now intros ->. Qed.

Lemma selected_None u me tbl :
  selected u me None tbl = List.filter (between u me) tbl.
Proof.
  unfold selected. apply List.filter_ext. intros m. apply andb_true_r.
Qed.

(** With distinct timestamps there is one newest-first order. *)
Lemma newest_first_unique (l1 l2 : list Message.t) :
  NoDup (map Message.createdAt l1) ->
  Permutation l1 l2 -> newest_first l1 -> newest_first l2 -> l1 = l2.
Proof.
  revert l2. induction l1 as [|x l1 IH]; intros l2 Hnd Hp H1 H2.
  - apply Permutation_nil in Hp. now subst.
  - destruct l2 as [|y l2];
      [apply Permutation_sym, Permutation_nil in Hp; discriminate|].
    inversion Hnd as [|? ? Hx Hnd']; subst.
    inversion H1 as [|? ? H1' Hx1]; subst.
    inversion H2 as [|? ? H2' Hy2]; subst.
    assert (E : x = y).
    { assert (Hy : In y (x :: l1))
        by (apply (Permutation_in _ (Permutation_sym Hp)); now left).
      destruct Hy as [Hy|Hy]; [exact Hy|]. exfalso.
      assert (Hxin : In x (y :: l2)) by (apply (Permutation_in _ Hp); now left).
      rewrite List.Forall_forall in Hx1, Hy2.
      pose proof (Hx1 y Hy) as Hle.
      assert (Hge : Message.createdAt x <= Message.createdAt y).
      { destruct Hxin as [<-|Hxin]; [lia|now apply Hy2]. }
      apply Hx. replace (Message.createdAt x) with (Message.createdAt y) by lia.
      apply list_elem_of_In. now apply in_map. }
    subst y. f_equal. apply IH; auto.
    now apply Permutation_cons_inv in Hp.
Qed.

Lemma orderBy_unique u me tbl rows :
  NoDup (map Message.createdAt (List.filter (between u me) tbl)) ->
  Permutation rows (List.filter (between u me) tbl) ->
  newest_first rows ->
  rows = orderBy_createdAt_DESC (selected u me None tbl).
Proof.
  intros Hnd Hp Hs. rewrite selected_None.
  symmetry. apply newest_first_unique.
  - assert (Hpm : Permutation
                    (map Message.createdAt
                       (orderBy_createdAt_DESC (List.filter (between u me) tbl)))
                    (map Message.createdAt (List.filter (between u me) tbl)))
      by apply Permutation_map, orderBy_perm.
    now rewrite Hpm.
  - rewrite orderBy_perm. now apply Permutation_sym.
  - apply orderBy_sorted.
  - exact Hs.
Qed.

Lemma between_sym u me m : between u me m = between me u m.
Proof. unfold between. apply orb_comm. Qed.

Lemma selected_sym u me cursor tbl : selected u me cursor tbl = selected me u cursor tbl.
Proof.
  unfold selected. apply List.filter_ext. intros m. now rewrite between_sym.
Qed.

Lemma orderBy_newest m acc l :
  (forall x, In x l -> Message.createdAt x < Message.createdAt m) ->
  fold_right insert_desc (m :: acc) l = m :: fold_right insert_desc acc l.
Proof.
  induction l as [|x l IH]; intros H; simpl; [reflexivity|].
  rewrite IH by (intros y Hy; apply H; now right). simpl.
  rewrite (proj2 (Z.leb_gt _ _)); [reflexivity|]. apply H. now left.
Qed.

Lemma getMany_after_send S R txt now tbl :
  (forall x, In x tbl -> between S R x = true -> Message.createdAt x < now) ->
  firstn 20 (getMany S R None (tbl ++ [Message.mk S R txt now]))
  = Message.mk S R txt now :: firstn 19 (firstn 20 (getMany S R None tbl)).
Proof.
  intros Hnew. unfold getMany, selected. rewrite List.filter_app. simpl.
  assert (Hb : between S R (Message.mk S R txt now) = true).
  { unfold between. simpl.
    rewrite (bool_decide_eq_true_2 (R = R) eq_refl),
            (bool_decide_eq_true_2 (S = S) eq_refl).
    apply orb_true_r. }
  rewrite Hb. simpl. unfold orderBy_createdAt_DESC. rewrite fold_right_app. simpl.
  rewrite orderBy_newest.
  - simpl. rewrite !take_take. reflexivity.
  - intros x Hx. apply List.filter_In in Hx as [Hin Hx].
    rewrite andb_true_r in Hx. simpl. now apply Hnew.
Qed.

(** X14.  Sending then fetching.  A message is stored whether or not the two
    users are matched.  If the messages already exchanged between the two
    have distinct timestamps and the new one is newer than all of them, the
    newest page that the recipient fetches next -- and the one the sender
    fetches -- starts with it, followed by the first 19 messages of the page
    as it was before; and this is the page for every newest-first order in
    which the store may return the rows. *)
Theorem X14_a_sent_message_heads_the_newest_page (S R : UserId) (txt : string)
  (now : Z) (s : State) :
  NoDup (map Message.createdAt (List.filter (between S R) (messages s))) ->
  (forall x, In x (messages s) -> between S R x = true -> Message.createdAt x < now) ->
  let m := Message.mk S R txt now in
  let s' := snd (handle (PostMessage S R txt now) s) in
  exists page more0 more1 more2,
    fst (handle (GetMessages R S None) s) = MessagesPage page more0
    /\ fst (handle (PostMessage S R txt now) s) = MessageSent m
    /\ fst (handle (GetMessages R S None) s') = MessagesPage (m :: firstn 19 page) more1
    /\ fst (handle (GetMessages S R None) s') = MessagesPage (m :: firstn 19 page) more2
    /\ (forall rows,
          Permutation rows (List.filter (between S R) (messages s)) ->
          newest_first rows -> firstn 20 rows = page)
    /\ (forall rows,
          Permutation rows (List.filter (between S R) (messages s')) ->
          newest_first rows -> firstn 20 rows = m :: firstn 19 page).
Proof.
  intros Hnd Hnew m s'. subst s'. cbn [handle].
  rewrite !get_messages_reply by reflexivity. rewrite post_message_state.
  cbn [messages].
  eexists _, _, _, _. split; [reflexivity|]. split; [reflexivity|].
  fold m. split; [|split; [|split]].
  - unfold m. rewrite (getMany_after_send S R txt now (messages s) Hnew). reflexivity.
  - unfold getMany. rewrite <- !(selected_sym S R). fold (getMany S R None (messages s ++ [m])).
    fold (getMany S R None (messages s)).
    unfold m. rewrite (getMany_after_send S R txt now (messages s) Hnew). reflexivity.
  - intros rows Hp Hs. rewrite (orderBy_unique S R (messages s) rows Hnd Hp Hs).
    unfold getMany. now rewrite take_take.
  - intros rows Hp Hs.
    assert (Hb : between S R m = true).
    { unfold between, m. simpl.
      rewrite (bool_decide_eq_true_2 (R = R) eq_refl),
              (bool_decide_eq_true_2 (S = S) eq_refl).
      apply orb_true_r. }
    assert (Hnd' : NoDup (map Message.createdAt
                            (List.filter (between S R) (messages s ++ [m])))).
    { rewrite List.filter_app. simpl. rewrite Hb. rewrite map_app. simpl.
      apply NoDup_app. split; [exact Hnd|]. split; [|apply NoDup_singleton].
      intros t Ht Ht'. apply list_elem_of_In in Ht.
      apply in_map_iff in Ht as (x & <- & Hx).
      apply List.filter_In in Hx as [Hx Hbx].
      apply list_elem_of_In in Ht'. destruct Ht' as [E|[]].
      pose proof (Hnew x Hx Hbx). unfold m in E. simpl in E. lia. }
    rewrite (orderBy_unique S R (messages s ++ [m]) rows Hnd' Hp Hs).
    etransitivity; [|apply (getMany_after_send S R txt now (messages s) Hnew)].
    unfold getMany. now rewrite take_take.
Qed.

Lemma newest_first_last p l :
  newest_first p -> last p = Some l ->
  forall x, In x p -> Message.createdAt l <= Message.createdAt x.
Proof.
  unfold newest_first. induction 1 as [|y p Hs IH Hy]; intros Hl x Hx; [contradiction|].
  destruct p as [|z p].
  - simpl in Hl. injection Hl as <-. destruct Hx as [<-|[]]. lia.
  - change (last (y :: z :: p)) with (last (z :: p)) in Hl.
    destruct Hx as [<-|Hx]; [|now apply IH].
    rewrite List.Forall_forall in Hy. apply Hy.
    apply list_elem_of_In. eapply last_Some_elem_of. exact Hl.
Qed.

(** X15.  Paging.  When the client fetches the newest page and then fetches
    again with the timestamp of the last message of that page as cursor (a
    date, as the timestamp of a stored row is), every message of the second
    page is strictly older than every message of the first: pages never
    overlap -- and a message with exactly the cursor's timestamp is never on
    the second page. *)
Theorem X15_pages_do_not_overlap (me u : UserId) (page1 : list Message.t)
  (more1 : bool) (l : Message.t) (s : State) :
  fst (handle (GetMessages me u None) s) = MessagesPage page1 more1 ->
  last page1 = Some l ->
  Message.createdAt l <> 0 ->
  -8640000000000000 <= Message.createdAt l <= 8640000000000000 ->
  let s1 := snd (handle (GetMessages me u None) s) in
  exists page2 more2,
    fst (handle (GetMessages me u (Some (Message.createdAt l))) s1)
    = MessagesPage page2 more2
    /\ (forall m2, In m2 page2 -> Message.createdAt m2 < Message.createdAt l)
    /\ (forall m1 m2, In m1 page1 -> In m2 page2 ->
                      Message.createdAt m2 < Message.createdAt m1).
Proof.
  intros H1 Hl Hc Hdate s1. subst s1. cbn [handle] in *.
  assert (Hq : query_resolves (Some (Message.createdAt l)) = true).
  { apply query_resolves_bounds. now intros c [= <-]. }
  rewrite get_messages_reply in H1 by reflexivity.
  rewrite (get_messages_reply _ _ _ _ Hq). rewrite get_messages_state.
  cbn [query_resolves messages].
  injection H1 as <- _.
  eexists _, _. split; [reflexivity|].
  assert (Hold : forall m2,
             In m2 (firstn 20 (getMany u me (Some (Message.createdAt l)) (messages s))) ->
             Message.createdAt m2 < Message.createdAt l).
  { intros m2 H2. apply In_firstn in H2. unfold getMany in H2.
    apply In_firstn in H2.
    apply (Permutation_in _ (orderBy_perm _)) in H2.
    apply selected_In in H2 as (_ & _ & H2). now apply (H2 _ eq_refl). }
  split; [exact Hold|].
  intros m1 m2 Hm1 Hm2. specialize (Hold m2 Hm2).
  assert (Hs : newest_first (firstn 20 (getMany u me None (messages s)))).
  { apply newest_first_firstn. unfold getMany. apply newest_first_firstn.
    apply orderBy_sorted. }
  pose proof (newest_first_last _ _ Hs Hl m1 Hm1). lia.
Qed.

(** ** Rows per pair, and the feed *)

(** X16.  In every reachable state there is at most one Match row per
    unordered pair of users, counting rows stored in either order: no
    sequence of likes, repeated likes, unmatches and reports leaves two rows
    for one pair. *)
Theorem X16_one_row_per_pair (s : State) (a b : UserId) :
  reachable s ->
  (length (pair_rows a b (matches s)) <= 1)%nat.
Proof.
  intros Hs. destruct (reachable_Inv s Hs) as (_ & _ & _ & Hu). apply Hu.
Qed.

Lemma In_keys (m : gmap UserId User.t) (x : UserId) :
  In x (map fst (map_to_list m)) <-> is_Some (m !! x).
Proof.
  rewrite List.in_map_iff. split.
  - intros ([k v] & <- & Hin). apply list_elem_of_In, elem_of_map_to_list in Hin.
    simpl. eauto.
  - intros [v Hv]. exists (x, v). split; [reflexivity|].
    apply list_elem_of_In, elem_of_map_to_list. exact Hv.
Qed.

Lemma viewed_same_pair me u l tbl :
  existsb (fun v => bool_decide (View.viewerId v = me)
                    && bool_decide (View.targetId v = u)) tbl
  = existsb (View.same_pair (View.mk me u l)) tbl.
Proof.
  induction tbl as [|v tbl IH]; simpl; [reflexivity|]. rewrite IH. f_equal.
  unfold View.same_pair. simpl.
  destruct (decide (View.viewerId v = me)) as [E1|E1],
           (decide (View.targetId v = u)) as [E2|E2];
    rewrite ?(bool_decide_eq_true_2 _ E1), ?(bool_decide_eq_false_2 _ E1),
            ?(bool_decide_eq_true_2 _ E2), ?(bool_decide_eq_false_2 _ E2);
    [rewrite !bool_decide_eq_true_2 by congruence
    |rewrite (bool_decide_eq_false_2 (u = View.targetId v)) by congruence
    |rewrite (bool_decide_eq_false_2 (me = View.viewerId v)) by congruence
    |rewrite (bool_decide_eq_false_2 (me = View.viewerId v)) by congruence];
    simpl; rewrite ?andb_false_r; reflexivity.
Qed.

Lemma feed_candidates_In profile_ok me s u :
  In u (feed_candidates profile_ok me s) <->
  is_Some (users s !! u)
  /\ existsb (View.same_pair (View.mk me u true)) (views s) = false
  /\ u <> me
  /\ profile_ok u = true.
Proof.
  unfold feed_candidates. rewrite List.filter_In, In_keys.
  rewrite !andb_true_iff, !negb_true_iff, bool_decide_eq_false.
  rewrite (viewed_same_pair me u true).
  split; [intros (H1 & (H2 & H3) & H4)|intros (H1 & H2 & H3 & H4)]; auto.
Qed.

(** X17.  Whoever satisfies the WHERE clause of the feed query for [me] is
    an existing account other than [me] that [me] has no View of.  So a
    /view about a profile of the feed is always accepted ([ok: true]; it
    matches exactly when it is a like and the profile already likes [me]),
    and after it that profile is in the feed no more, while nobody new
    enters it. *)
Theorem X17_feed_profiles_can_be_swiped_once (profile_ok : UserId -> bool)
  (me u : UserId) (l : bool) (s : State) :
  In u (feed_candidates profile_ok me s) ->
  let s' := snd (handle (PostView None me u l) s) in
  u <> me
  /\ is_Some (users s !! u)
  /\ view_rows me u (views s) = []
  /\ fst (handle (PostView None me u l) s) = ViewJson (l && likes u me s) true
  /\ ~ In u (feed_candidates profile_ok me s')
  /\ (forall x, In x (feed_candidates profile_ok me s') ->
                In x (feed_candidates profile_ok me s)).
Proof.
  intros Hin s'. subst s'.
  apply feed_candidates_In in Hin as (Hu & Hfresh & Hne & Hok).
  assert (Hdup : existsb (View.same_pair (View.mk me u l)) (views s) = false).
  { apply no_rows_fresh. now apply (view_rows_fresh me u true). }
  cbn [handle]. rewrite (post_view_accepted me u l s Hdup). cbn [fst snd].
  split; [exact Hne|]. split; [exact Hu|].
  split; [now apply (view_rows_fresh me u true)|]. split; [reflexivity|].
  split.
  - rewrite feed_candidates_In. cbn [views users]. intros (_ & Hno & _).
    rewrite existsb_app in Hno. apply orb_false_iff in Hno as [_ Hno].
    simpl in Hno. unfold View.same_pair in Hno. simpl in Hno.
    rewrite !bool_decide_eq_true_2 in Hno by reflexivity. discriminate.
  - intros x. rewrite !feed_candidates_In. cbn [views users].
    intros (Hx & Hno & Hxn & Hxo).
    rewrite existsb_app in Hno. apply orb_false_iff in Hno as [Hno _].
    split; [|auto].
    destruct l; [|exact Hx].
    destruct (decide (u = x)) as [->|Hux].
    + rewrite lookup_alter_eq in Hx. destruct (users s !! x); [eauto|].
      destruct Hx as [? Hx]. discriminate.
    + now rewrite lookup_alter_ne in Hx by exact Hux.
Qed.

(** X18.  The feed query and its parameter array fit together, whatever the
    requesting user's goal, global flag and gender preference: every
    placeholder [$n] of the query text has a parameter, every parameter is
    used by a placeholder, and each comparison gets the value listed in
    [slot_value] -- the other's [genderToShow] is compared with the user's
    gender, the other's age with the user's age range, the other's age range
    with the user's age, and so on. *)
Theorem X18_feed_placeholders_match_parameters (me : UserId) (user : Profile.t)
  (myAge : Z) :
  (forall n sl, In (n, sl) (feed_placeholders user) ->
     (1 <= n)%nat
     /\ nth_error (feed_params me user myAge) (n - 1) = Some (slot_value me user myAge sl))
  /\ (forall n, (1 <= n <= length (feed_params me user myAge))%nat ->
        exists sl, In (n, sl) (feed_placeholders user)).
Proof.
  unfold feed_placeholders, feed_params.
  destruct (bool_decide (Profile.goal user = "love")),
           (Profile.global user),
           (bool_decide (Profile.genderToShow user <> "everyone"));
    cbn [andb app length]; split.
  all: try (intros n sl Hin; simpl in Hin;
            repeat (destruct Hin as [[= <- <-]|Hin]; [split; [lia|reflexivity]|]);
            contradiction).
  all: intros n [H1 H2]; simpl in H2;
    do 13 (destruct n as [|n]; [first [lia|eexists; simpl; eauto 20]|]); lia.
Qed.

(** ** Who gets connected *)

Lemma connected_insert_present k key e' s e :
  wsUsers s !! key = Some e ->
  bool_decide (is_Some (<[key := e']> (wsUsers s) !! k)) = connected k s.
Proof.
  intros He. unfold connected. destruct (decide (key = k)) as [->|Hne].
  - rewrite lookup_insert_eq, He.
    rewrite !bool_decide_eq_true_2; eauto.
  - now rewrite lookup_insert_ne.
Qed.

(** X19.  A user who is not connected becomes connected only through an
    upgrade request that authenticated as that very user: both credentials
    present as strings, and either the access credential verified for the
    user, or it did not and the refresh credential verified for the user,
    whose account exists with the same token version.  No HTTP request and
    no socket message ever adds a user to the registry. *)
Theorem X19_only_an_authenticated_upgrade_connects (r : Request) (k : UserId)
  (s : State) :
  connected k s = false ->
  connected k (snd (handle r s)) = true ->
  exists a rf w,
    r = WsUpgrade (QString a) (QString rf) w
    /\ a <> "" /\ rf <> "" /\ k <> ""
    /\ fst (handle r s) = Upgraded k
    /\ wsUsers (snd (handle r s)) !! k = Some (mkWsEntry w None)
    /\ ((exists data, verify a ACCESS_TOKEN_SECRET = Some data
                      /\ Token.userId data = k)
        \/ (verify a ACCESS_TOKEN_SECRET = None
            /\ exists data user,
                 verify rf REFRESH_TOKEN_SECRET = Some data
                 /\ Token.userId data = k
                 /\ users s !! k = Some user
                 /\ Token.tokenVersion data = Some (User.tokenVersion user))).
Proof.
  intros Hoff Hon.
  assert (Hsame : forall s' : State, wsUsers s' = wsUsers s ->
                                     connected k s' = true -> False).
  { intros s' E H. rewrite (connected_same k s s' E) in H. congruence. }
  destruct r as [fault me u l|me rcp txt now|me u cursor|me u|fault me u q|a rf w|u t peer|u];
    cbn [handle snd fst] in *.
  - exfalso. destruct (post_view_state_cases fault me u l s) as [E|(-> & Hdup)].
    + rewrite E in Hon. congruence.
    + rewrite (post_view_accepted me u l s Hdup) in Hon. now apply (Hsame _ eq_refl Hon).
  - exfalso. rewrite post_message_state in Hon. now apply (Hsame _ eq_refl Hon).
  - exfalso. rewrite get_messages_state in Hon.
    destruct (query_resolves cursor); [|congruence].
    destruct (wsUsers s !! me) as [e|] eqn:He; [|now apply (Hsame _ eq_refl Hon)].
    unfold connected in Hon at 1. cbn [wsUsers] in Hon.
    rewrite (connected_insert_present k me _ s e He) in Hon. congruence.
  - exfalso. rewrite post_unmatch_state in Hon. now apply (Hsame _ eq_refl Hon).
  - exfalso. rewrite post_report_state, post_unmatch_state in Hon.
    destruct (bool_decide (q = "unmatch")); cbn [snd] in Hon;
      [now apply (Hsame _ eq_refl Hon)|].
    destruct (bool_decide (q = "reject")); cbn [snd] in Hon; [|congruence].
    destruct (View.insert fault (views s) (View.mk me u false));
      cbn [snd] in Hon; [congruence|now apply (Hsame _ eq_refl Hon)].
  - unfold on_upgrade in *.
    destruct (upgrade a rf (users s)) as [uid|] eqn:Hup; cbn [fst snd] in *;
      [|congruence].
    unfold on_connection in *.
    destruct (bool_decide (uid = "")) eqn:Hid; [congruence|].
    apply bool_decide_eq_false in Hid.
    unfold connected in Hon. cbn [wsUsers set_wsUsers] in Hon.
    destruct (decide (uid = k)) as [->|Hne].
    + destruct (upgrade_good _ _ _ _ Hup) as (a' & r' & -> & -> & Ha & Hr & Hv).
      exists a', r', w. cbn [wsUsers set_wsUsers].
      rewrite lookup_insert_eq. auto 10.
    + rewrite lookup_insert_ne in Hon by exact Hne.
      unfold connected in Hoff. congruence.
  - exfalso. unfold on_message in Hon.
    destruct (bool_decide (t = "message-open")); [|congruence].
    destruct (wsUsers s !! u) as [e|] eqn:He; [|congruence].
    unfold connected in Hon at 1. cbn [wsUsers set_wsUsers] in Hon.
    rewrite (connected_insert_present k u _ s e He) in Hon. congruence.
  - exfalso. unfold on_close, connected in Hon. cbn [wsUsers set_wsUsers] in Hon.
    apply bool_decide_eq_true in Hon as [e He].
    apply lookup_delete_Some in He as [_ He].
    unfold connected in Hoff. rewrite He in Hoff. discriminate Hoff.
Qed.

End Server.

(** ** Rate-limit quotas *)

Lemma consume_frame l actor now store key :
  key <> (RateLimit.l_keyPrefix l, actor) ->
  snd (RateLimit.consume l actor now store) !! key = store !! key.
Proof.
  intros Hne. unfold RateLimit.consume.
  destruct (RateLimit.l_points l <? _); cbn [snd];
    apply lookup_insert_ne; congruence.
Qed.

(** A quota that declares a block: the first attempt beyond the capacity
    restarts the counter's lifetime at the block duration. *)
Lemma block_starts_on_first_violation l actor now store c :
  0 < RateLimit.l_blockDuration l ->
  store !! (RateLimit.l_keyPrefix l, actor) = Some c ->
  now < RateLimit.expiresAt c ->
  RateLimit.consumed c = RateLimit.l_points l ->
  RateLimit.consume l actor now store
  = (false,
     <[(RateLimit.l_keyPrefix l, actor) :=
         RateLimit.mkCounter (RateLimit.l_points l + 1)
                             (now + RateLimit.l_blockDuration l)]> store).
Proof.
  intros Hb Hc Hlive Hfull. unfold RateLimit.consume. rewrite Hc.
  rewrite (proj2 (Z.ltb_lt _ _) Hlive). cbn [RateLimit.consumed RateLimit.expiresAt].
  rewrite Hfull.
  rewrite (proj2 (Z.ltb_lt (RateLimit.l_points l) (RateLimit.l_points l + 1)))
    by lia.
  rewrite (proj2 (Z.ltb_lt _ _) Hb), Z.leb_refl.
  reflexivity.
Qed.

(** C8 (amended).  The swipe quota (POST /view) declares 100 points per
    window of one day and a block duration of 0, overriding the default block
    duration of one day that every other quota inherits (and which equals,
    not exceeds, their one-day window).  So a violation of the swipe quota
    starts no lockout: a swipe is refused only while the 100 points of the
    current window are used up, the refusal leaves the end of the window
    where it was, and the first attempt at or after that end is admitted.
    Counters are keyed by key prefix and actor, the swipe prefix differs from
    every other prefix, and an attempt changes no counter but its own. *)
Theorem C8_swipe_quota_declares_no_block :
  RateLimit.l_points view_limiter = 100
  /\ RateLimit.l_duration view_limiter = SECONDS_IN_A_DAY
  /\ RateLimit.l_blockDuration view_limiter = 0
  /\ RateLimit.blockDuration defaultRateLimitOpts = Some SECONDS_IN_A_DAY
  /\ Forall (fun l => RateLimit.l_blockDuration l = RateLimit.l_duration l
                      /\ RateLimit.l_keyPrefix l <> RateLimit.l_keyPrefix view_limiter)
            other_limiters
  /\ forall (actor : UserId) (now : Z) (store : gmap (string * UserId) RateLimit.Counter),
       let res := RateLimit.consume view_limiter actor now store in
       (forall key, key <> ("rl/view/", actor) -> snd res !! key = store !! key)
       /\ (fst res = false ->
           exists c,
             store !! ("rl/view/", actor) = Some c
             /\ now < RateLimit.expiresAt c
             /\ 100 <= RateLimit.consumed c
             /\ snd res !! ("rl/view/", actor)
                = Some (RateLimit.mkCounter (RateLimit.consumed c + 1)
                                            (RateLimit.expiresAt c))
             /\ forall t, RateLimit.expiresAt c <= t ->
                          fst (RateLimit.consume view_limiter actor t (snd res)) = true).
Proof.
  split; [reflexivity|]. split; [reflexivity|]. split; [reflexivity|].
  split; [reflexivity|]. split.
  { unfold other_limiters. repeat constructor; discriminate. }
  intros actor now store res. split.
  { intros key Hne. apply consume_frame. exact Hne. }
  subst res. unfold RateLimit.consume.
  change (RateLimit.l_keyPrefix view_limiter) with "rl/view/".
  change (RateLimit.l_points view_limiter) with 100.
  change (RateLimit.l_blockDuration view_limiter) with 0.
  change (RateLimit.l_duration view_limiter) with 86400.
  change (0 <? 0) with false. cbn [andb].
  destruct (store !! ("rl/view/", actor)) as [c|] eqn:Hc;
    [destruct (now <? RateLimit.expiresAt c) eqn:Hlive|];
    cbn [RateLimit.consumed RateLimit.expiresAt];
    try (change (100 <? 1) with false; cbn [fst]; discriminate).
  destruct (100 <? RateLimit.consumed c + 1) eqn:Hfull; cbn [fst snd];
    [|discriminate].
  intros _. exists c. apply Z.ltb_lt in Hlive, Hfull.
  split; [reflexivity|]. split; [exact Hlive|]. split; [lia|].
  split; [apply lookup_insert_eq|].
  intros t Ht. rewrite lookup_insert_eq. cbn [RateLimit.expiresAt].
  rewrite (proj2 (Z.ltb_ge t (RateLimit.expiresAt c))) by lia. reflexivity.
Qed.

(** ** Worked instances *)

#[local] Abbreviation sample_handle :=
  (handle sample_defaults sample_verify "access-secret" "refresh-secret").
#[local] Abbreviation sample_run :=
  (run sample_defaults sample_verify "access-secret" "refresh-secret").
#[local] Abbreviation sample_reachable :=
  (reachable sample_defaults sample_verify "access-secret" "refresh-secret").

(** alice likes bob, a message and an unmatch attempt go by, bob likes alice. *)
Lemma C1_witness :
  let mid := [PostMessage "alice" "bob" "hi" 1000; PostUnmatch "bob" "alice"] in
  let first := sample_handle (PostView None "alice" "bob" true) (initial sample_accounts) in
  let second := sample_handle (PostView None "bob" "alice" true) (sample_run mid (snd first)) in
  sample_reachable (initial sample_accounts)
  /\ "alice" <> "bob"
  /\ forallb (fun r => negb (views_pair "bob" "alice" r)) mid = true
  /\ fst first = ViewJson false true
  /\ fst second = ViewJson true true
  /\ pair_rows "alice" "bob" (matches (snd second))
     = [Match.mk "alice" "bob" false false false].
Proof.
  intros mid first second.
  assert (Hreach : sample_reachable (initial sample_accounts)) by constructor.
  assert (Hne : "alice" <> "bob") by discriminate.
  assert (Hmid : forallb (fun r => negb (views_pair "bob" "alice" r)) mid = true)
    by reflexivity.
  destruct (C1_mutual_likes_form_one_match
              sample_defaults sample_verify "access-secret" "refresh-secret"
              "alice" "bob" mid (initial sample_accounts)
              Hreach Hne eq_refl eq_refl Hmid)
    as (H1 & _ & _ & H2 & _).
  split; [exact Hreach|]. split; [exact Hne|]. split; [exact Hmid|].
  split; [exact H1|]. split; [exact H2|].
  vm_compute. reflexivity.
Defined.



(** bob reconnects with a stale access credential and his current refresh
    credential. *)
Lemma C4_witness :
  let s := initial sample_accounts in
  let res := sample_handle (WsUpgrade (QString "stale-access")
                                      (QString "refresh-bob-v3") 7%nat) s in
  sample_verify "stale-access" "access-secret" = None
  /\ sample_verify "refresh-bob-v3" "refresh-secret" = Some (Token.mk "bob" (Some 3))
  /\ users s !! "bob" = Some (User.mk 3 0)
  /\ fst res = Upgraded "bob"
  /\ wsUsers (snd res) !! "bob" = Some (mkWsEntry 7%nat None).
Proof.
  intros s res.
  assert (Hu : users s !! "bob" = Some (User.mk 3 0)) by (vm_compute; reflexivity).
  destruct (C4_refresh_credential_accepted
              sample_defaults sample_verify "access-secret" "refresh-secret"
              "stale-access" "refresh-bob-v3" (Token.mk "bob" (Some 3))
              (User.mk 3 0) 7%nat s)
    as (_ & H1 & H2 & _);
    [discriminate|discriminate|reflexivity|reflexivity|exact Hu|reflexivity
    |discriminate|].
  split; [reflexivity|]. split; [reflexivity|]. split; [exact Hu|].
  split; [exact H1|exact H2].
Defined.

(** bob's refresh credential was issued at token version 3; the account has
    moved on to version 4. *)
Lemma C5_witness :
  let s := initial (<["bob" := User.mk 4 0]> ∅) in
  sample_verify "stale-access" "access-secret" = None
  /\ users s !! "bob" = Some (User.mk 4 0)
  /\ sample_handle (WsUpgrade (QString "stale-access") (QString "refresh-bob-v3") 7%nat) s
     = (Unauthorized, s).
Proof.
  intros s.
  assert (Hu : users s !! "bob" = Some (User.mk 4 0)) by (vm_compute; reflexivity).
  split; [reflexivity|]. split; [exact Hu|].
  apply (C5_failed_authentication_rejected
           sample_defaults sample_verify "access-secret" "refresh-secret").
  do 4 right. exists "stale-access", "refresh-bob-v3".
  split; [reflexivity|]. split; [reflexivity|]. split; [reflexivity|].
  right. exists (Token.mk "bob" (Some 3)). split; [reflexivity|].
  right. exists (User.mk 4 0). split; [exact Hu|]. discriminate.
Defined.

(** alice and bob match, bob connects and opens carol's conversation; then
    alice writes to bob.  The unread marker is set on bob's side ([read2]);
    the queue holds the job of the match (alice had no connection then) and
    nothing else: no job is queued for the message. *)
Lemma C6_counterexample :
  let s := sample_run [PostView None "alice" "bob" true;
                       PostView None "bob" "alice" true;
                       WsUpgrade (QString "stale-access") (QString "refresh-bob-v3") 7%nat;
                       WsMessage "bob" "message-open" (Some "carol");
                       GetMessages "bob" "alice" None;
                       WsMessage "bob" "message-open" (Some "carol")]
                      (initial sample_accounts) in
  let s' := snd (sample_handle (PostMessage "alice" "bob" "hello" 1000) s) in
  sample_reachable s
  /\ connected "bob" s = true
  /\ focusedPeer "bob" s = Some "carol"
  /\ matches s = [Match.mk "alice" "bob" false true false]
  /\ matches s' = [Match.mk "alice" "bob" false false false]
  /\ pushQueue s = [mkPushJob "alice" "bob" PushMatch None]
  /\ pushQueue s' = pushQueue s
  /\ ~ (exists job, In job (pushQueue s') /\ type job = PushMessage).
Proof.
  intros s s'.
  assert (Hq : pushQueue s' = [mkPushJob "alice" "bob" PushMatch None])
    by (vm_compute; reflexivity).
  assert (Hq0 : pushQueue s = [mkPushJob "alice" "bob" PushMatch None])
    by (vm_compute; reflexivity).
  split; [apply reachable_run; constructor|].
  split; [vm_compute; reflexivity|].
  split; [vm_compute; reflexivity|].
  split; [vm_compute; reflexivity|].
  split; [vm_compute; reflexivity|].
  split; [exact Hq0|].
  split; [now rewrite Hq, Hq0|].
  rewrite Hq. intros (job & [<-|[]] & Hj). discriminate.
Qed.

Lemma C6_witness :
  let s := mkState [View.mk "alice" "bob" true; View.mk "bob" "alice" true]
                   [Match.mk "alice" "bob" true true false] [] sample_accounts
                   (<["bob" := mkWsEntry 7%nat (Some "carol")]> ∅) [] [] in
  let s' := snd (sample_handle (PostMessage "alice" "bob" "hello" 1000) s) in
  wsUsers s !! "bob" = Some (mkWsEntry 7%nat (Some "carol"))
  /\ Some "carol" <> Some "alice"
  /\ sent s' = [(7%nat, NewMessage (Message.mk "alice" "bob" "hello" 1000))]
  /\ pushQueue s' = [].
Proof.
  intros s s'.
  assert (Hw : wsUsers s !! "bob" = Some (mkWsEntry 7%nat (Some "carol")))
    by (vm_compute; reflexivity).
  assert (Hf : openChatUserId (mkWsEntry 7%nat (Some "carol")) <> Some "alice")
    by discriminate.
  destruct (C6_unfocused_recipient_marked_unread
              sample_defaults sample_verify "access-secret" "refresh-secret"
              "alice" "bob" "hello" 1000 _ s Hw Hf)
    as (H1 & H2 & _).
  split; [exact Hw|]. split; [exact Hf|]. split; [exact H1|exact H2].
Defined.

(** bob is connected and has alice's conversation open. *)
Lemma C7_witness :
  let s := mkState [View.mk "alice" "bob" true; View.mk "bob" "alice" true]
                   [Match.mk "alice" "bob" true true false] [] sample_accounts
                   (<["bob" := mkWsEntry 7%nat (Some "alice")]> ∅) [] [] in
  let s' := snd (sample_handle (PostMessage "alice" "bob" "hello" 1000) s) in
  wsUsers s !! "bob" = Some (mkWsEntry 7%nat (Some "alice"))
  /\ sent s' = [(7%nat, NewMessage (Message.mk "alice" "bob" "hello" 1000))]
  /\ pushQueue s' = []
  /\ matches s' = [Match.mk "alice" "bob" true true false].
Proof.
  intros s s'.
  assert (Hw : wsUsers s !! "bob" = Some (mkWsEntry 7%nat (Some "alice")))
    by (vm_compute; reflexivity).
  destruct (C7_focused_recipient_live_delivery
              sample_defaults sample_verify "access-secret" "refresh-secret"
              "alice" "bob" "hello" 1000 _ s Hw eq_refl)
    as (_ & _ & H1 & H2 & H3).
  split; [exact Hw|]. split; [exact H1|]. split; [exact H2|exact H3].
Defined.

(** The swipe quota at work: 100 points used in a window that ends at second
    86400; a swipe one second before the end is refused, the next one, at the
    end of the window, is admitted -- no block of more than a window. *)
Lemma C8_counterexample :
  let store : gmap (string * UserId) RateLimit.Counter :=
    <[("rl/view/", "alice") := RateLimit.mkCounter 100 86400]> ∅ in
  let refused := RateLimit.consume view_limiter "alice" 86399 store in
  ~ (RateLimit.l_duration view_limiter < RateLimit.l_blockDuration view_limiter)
  /\ RateLimit.l_blockDuration view_limiter = 0
  /\ fst refused = false
  /\ fst (RateLimit.consume view_limiter "alice" 86400 (snd refused)) = true.
Proof.
  intros store refused.
  split; [vm_compute; discriminate|].
  split; [reflexivity|].
  split; vm_compute; reflexivity.
Qed.

Lemma C8_witness :
  let store : gmap (string * UserId) RateLimit.Counter :=
    <[("rl/view/", "alice") := RateLimit.mkCounter 100 86400]> ∅ in
  let refused := RateLimit.consume view_limiter "alice" 86399 store in
  fst refused = false
  /\ fst (RateLimit.consume view_limiter "alice" 90000 (snd refused)) = true.
Proof.
  intros store refused.
  assert (Hr : fst refused = false) by (vm_compute; reflexivity).
  destruct C8_swipe_quota_declares_no_block as (_ & _ & _ & _ & _ & H).
  destruct (H "alice" 86399 store) as [_ H'].
  destruct (H' Hr) as (c & Hc & _ & _ & _ & Hlater).
  split; [exact Hr|].
  apply Hlater.
  vm_compute in Hc. injection Hc as <-. cbn. lia.
Defined.

(** alice and bob are matched and alice fetches the conversation with the
    cursor 0: her read flag is set as for a fetch without cursor. *)
Lemma C9_counterexample :
  let s := sample_run [PostView None "alice" "bob" true;
                       PostView None "bob" "alice" true] (initial sample_accounts) in
  let s' := snd (sample_handle (GetMessages "alice" "bob" (Some 0)) s) in
  sample_reachable s
  /\ matches s = [Match.mk "alice" "bob" false false false]
  /\ matches s' = [Match.mk "alice" "bob" true false false]
  /\ matches s' <> matches s.
Proof.
  intros s s'.
  split; [apply reachable_run; constructor|].
  split; [vm_compute; reflexivity|].
  split; [vm_compute; reflexivity|].
  vm_compute. discriminate.
Qed.

Lemma C9_witness :
  let s := sample_run [PostView None "alice" "bob" true;
                       PostView None "bob" "alice" true] (initial sample_accounts) in
  matches (snd (sample_handle (GetMessages "alice" "bob" (Some 1000)) s)) = matches s
  /\ Forall2 (fun old new => read_of "alice" new = true /\ read_of "bob" new = read_of "bob" old)
             (matches s)
             (matches (snd (sample_handle (GetMessages "alice" "bob" None) s))).
Proof.
  intros s. split.
  - destruct (C9_newest_page_marks_read
                sample_defaults sample_verify "access-secret" "refresh-secret"
                "alice" "bob" (Some 1000) s) as [_ H].
    apply (H 1000); [reflexivity|discriminate].
  - vm_compute. repeat constructor.
Defined.

(** bob wrote to alice at time 5000; alice fetches with the cursor 0 and gets
    the message, which is not older than the cursor. *)
Lemma C10_counterexample :
  let s := sample_run [PostMessage "bob" "alice" "hi" 5000] (initial sample_accounts) in
  fst (sample_handle (GetMessages "alice" "bob" (Some 0)) s)
  = MessagesPage [Message.mk "bob" "alice" "hi" 5000] false
  /\ ~ (Message.createdAt (Message.mk "bob" "alice" "hi" 5000) < 0).
Proof.
  intros s. split; [vm_compute; reflexivity|]. simpl. lia.
Qed.

(** Two messages; alice fetches with a cursor between their timestamps. *)
Lemma C10_witness :
  let s := sample_run [PostMessage "bob" "alice" "hi" 1000;
                       PostMessage "alice" "bob" "hello" 2000] (initial sample_accounts) in
  (forall c, Some 1500 = Some c -> -8640000000000000 <= c <= 8640000000000000)
  /\ exists page hasMore,
       fst (sample_handle (GetMessages "alice" "bob" (Some 1500)) s)
       = MessagesPage page hasMore
       /\ (length page <= 20)%nat
       /\ forall m, In m page -> Message.createdAt m < 1500.
Proof.
  intros s.
  assert (Hdate : forall c, Some 1500 = Some c ->
                            -8640000000000000 <= c <= 8640000000000000).
  { intros c [= <-]. lia. }
  destruct (C10_conversation_page
              sample_defaults sample_verify "access-secret" "refresh-secret"
              "alice" "bob" (Some 1500) s Hdate)
    as (page & hasMore & rest & H0 & H1 & _ & _ & _ & H2 & _).
  split; [exact Hdate|]. exists page, hasMore.
  split; [exact H0|]. split; [exact H1|].
  intros m Hm. destruct (H2 m Hm) as (_ & _ & H3). apply (H3 1500); [reflexivity|lia].
Defined.

(** ** PUT /user *)

(** X20.  Whatever the client sends, the body that PUT /user validates has a
    non-empty location; with the friendship goal it has the age range 18 to
    33 and the location "online" in place of the client's values; without
    it the age range is the client's and a non-empty location is kept.
    Rewriting a rewritten body changes nothing. *)
Theorem X20_user_body_is_normalised (b : UserBody.t) :
  (exists l, UserBody.location (normalise_user_body b) = Some l /\ l <> "")
  /\ UserBody.goal (normalise_user_body b) = UserBody.goal b
  /\ (UserBody.goal b = Some "friendship" ->
      normalise_user_body b
      = UserBody.mk (Some "friendship") (Some "online") (Some 18) (Some 33))
  /\ (UserBody.goal b <> Some "friendship" ->
      UserBody.ageRangeMin (normalise_user_body b) = UserBody.ageRangeMin b
      /\ UserBody.ageRangeMax (normalise_user_body b) = UserBody.ageRangeMax b
      /\ forall l, UserBody.location b = Some l -> l <> "" ->
                   normalise_user_body b = b)
  /\ normalise_user_body (normalise_user_body b) = normalise_user_body b.
Proof.
  destruct b as [g loc lo hi]. unfold normalise_user_body. cbn.
  destruct (bool_decide (g = Some "friendship")) eqn:Hg.
  - apply bool_decide_eq_true in Hg. subst g. cbn.
    repeat split; try congruence. exists "online". split; [reflexivity|discriminate].
  - apply bool_decide_eq_false in Hg. cbn.
    destruct loc as [l|]; [destruct (bool_decide (l = "")) eqn:Hl|]; cbn;
      rewrite ?Hl; cbn;
      rewrite ?(bool_decide_eq_false_2 (g = Some "friendship")) by exact Hg; cbn;
      rewrite ?Hl; cbn.
    + apply bool_decide_eq_true in Hl. subst l.
      repeat split; try congruence.
      exists "online". split; [reflexivity|discriminate].
    + apply bool_decide_eq_false in Hl.
      repeat split; try congruence. eauto.
    + repeat split; try congruence.
      exists "online". split; [reflexivity|discriminate].
Qed.

(** ** Worked instances of the further properties *)

(** bob is liked by alice, passed by carol and liked once more by alice
    (refused): his counter goes from 0 to 1. *)
Lemma X1_witness :
  let s := initial sample_accounts in
  let t := [PostView None "alice" "bob" true;
            PostView None "carol" "bob" false;
            PostView None "alice" "bob" true] in
  users s !! "bob" = Some (User.mk 3 0)
  /\ users (sample_run t s) !! "bob" = Some (User.mk 3 1)
  /\ likes_received "bob" (views (sample_run t s)) = 1%nat.
Proof.
  intros s t.
  assert (H0 : users s !! "bob" = Some (User.mk 3 0)) by (vm_compute; reflexivity).
  assert (H1 : users (sample_run t s) !! "bob" = Some (User.mk 3 1))
    by (vm_compute; reflexivity).
  pose proof (X1_like_counter_counts_recorded_likes
                sample_defaults sample_verify "access-secret" "refresh-secret"
                t s "bob" _ _ H0 H1) as H.
  split; [exact H0|]. split; [exact H1|].
  change (likes_received "bob" (views s)) with 0%nat in H. cbn [User.numLikes] in H.
  lia.
Defined.

(** alice and bob are matched; alice unmatches. *)
Lemma X5_witness :
  let s := sample_run [PostView None "alice" "bob" true;
                       PostView None "bob" "alice" true] (initial sample_accounts) in
  let s' := snd (sample_handle (PostUnmatch "alice" "bob") s) in
  sample_reachable s
  /\ has_match "alice" "bob" s = true
  /\ has_match "alice" "bob" s' = false
  /\ has_match "bob" "alice" s' = false.
Proof.
  intros s s'.
  assert (Hs : sample_reachable s) by (apply reachable_run; constructor).
  destruct (X5_unmatch_removes_the_match
              sample_defaults sample_verify "access-secret" "refresh-secret"
              "alice" "bob" s Hs) as (_ & H1 & H2 & _).
  split; [exact Hs|]. split; [vm_compute; reflexivity|]. split; [exact H1|exact H2].
Defined.

(** ... and both like each other again afterwards: refused, no new match. *)
Lemma X6_witness :
  let s := sample_run [PostView None "alice" "bob" true;
                       PostView None "bob" "alice" true] (initial sample_accounts) in
  let later := [PostView None "alice" "bob" true; PostView None "bob" "alice" true] in
  sample_reachable s
  /\ has_match "alice" "bob" s = true
  /\ has_match "alice" "bob"
       (sample_run later (snd (sample_handle (PostUnmatch "bob" "alice") s))) = false.
Proof.
  intros s later.
  assert (Hs : sample_reachable s) by (apply reachable_run; constructor).
  assert (Hm : has_match "alice" "bob" s = true) by (vm_compute; reflexivity).
  split; [exact Hs|]. split; [exact Hm|].
  apply (X6_unmatched_pairs_never_match_again
           sample_defaults sample_verify "access-secret" "refresh-secret"
           "alice" "bob" "bob" "alice" None (PostUnmatch "bob" "alice") later s Hs Hm).
  - right. split; reflexivity.
  - left. reflexivity.
Defined.

(** alice passes on bob; later bob likes alice and alice tries to like bob. *)
Lemma X7_witness :
  let s := sample_run [PostView None "alice" "bob" false] (initial sample_accounts) in
  let later := [PostView None "bob" "alice" true; PostView None "alice" "bob" true] in
  sample_reachable s
  /\ In (View.mk "alice" "bob" false) (views s)
  /\ likes "bob" "alice" (sample_run later s) = true
  /\ likes "alice" "bob" (sample_run later s) = false
  /\ has_match "alice" "bob" (sample_run later s) = false.
Proof.
  intros s later.
  assert (Hs : sample_reachable s) by (apply reachable_run; constructor).
  assert (Hin : In (View.mk "alice" "bob" false) (views s)) by (vm_compute; auto).
  destruct (X7_a_dislike_rules_out_a_match
              sample_defaults sample_verify "access-secret" "refresh-secret"
              "alice" "bob" later s Hs Hin) as (H1 & H2 & _).
  split; [exact Hs|]. split; [exact Hin|]. split; [vm_compute; reflexivity|].
  split; [exact H1|exact H2].
Defined.

(** alice writes to bob, who is matched with her and not connected. *)
Lemma X9_witness :
  let s := sample_run [PostView None "alice" "bob" true;
                       PostView None "bob" "alice" true] (initial sample_accounts) in
  let s' := snd (sample_handle (PostMessage "alice" "bob" "hello" 1000) s) in
  wsUsers s !! "bob" = None
  /\ sent s' = sent s
  /\ pushQueue s'
     = pushQueue s ++ [mkPushJob "bob" "alice" PushMessage (Some "hello")].
Proof.
  intros s s'.
  assert (Hoff : wsUsers s !! "bob" = None) by (vm_compute; reflexivity).
  destruct (X9_offline_recipient_gets_a_push_job
              sample_defaults sample_verify "access-secret" "refresh-secret"
              "alice" "bob" "hello" 1000 s Hoff) as (_ & H1 & H2 & _).
  split; [exact Hoff|]. split; [exact H1|exact H2].
Defined.

(** bob already likes alice and is not connected; alice likes bob. *)
Lemma X10_witness :
  let s := sample_run [PostView None "bob" "alice" true] (initial sample_accounts) in
  let s' := snd (sample_handle (PostView None "alice" "bob" true) s) in
  view_rows "alice" "bob" (views s) = []
  /\ fst (sample_handle (PostView None "alice" "bob" true) s) = ViewJson true true
  /\ sent s' = sent s
  /\ pushQueue s' = pushQueue s ++ [mkPushJob "bob" "alice" PushMatch None].
Proof.
  intros s s'.
  assert (Hfresh : view_rows "alice" "bob" (views s) = []) by reflexivity.
  destruct (X10_what_a_view_delivers
              sample_defaults sample_verify "access-secret" "refresh-secret"
              "alice" "bob" s Hfresh) as (H1 & H2 & H3 & _).
  split; [exact Hfresh|]. split; [exact H1|].
  split; [unfold s'; rewrite H2; vm_compute; reflexivity|].
  unfold s'. rewrite H3. vm_compute. reflexivity.
Defined.

(** bob connects on socket 1, again on socket 2, then socket 1 closes. *)
Lemma X11_witness :
  let s2 := on_connection 2%nat "bob" (on_connection 1%nat "bob" (initial sample_accounts)) in
  let s3 := snd (sample_handle (WsClose "bob") s2) in
  "bob" <> ""
  /\ wsUsers s2 !! "bob" = Some (mkWsEntry 2%nat None)
  /\ wsUsers s3 !! "bob" = None.
Proof.
  intros s2 s3.
  assert (Hne : "bob" <> "") by discriminate.
  destruct (X11_close_of_a_replaced_socket_unregisters_the_user
              sample_defaults sample_verify "access-secret" "refresh-secret"
              "bob" 1%nat 2%nat (initial sample_accounts) Hne) as (H1 & H2 & _).
  split; [exact Hne|]. split; [exact H1|exact H2].
Defined.


(** alice's access credential verifies; the refresh parameter is garbage. *)
Lemma X13_witness :
  let res := sample_handle (WsUpgrade (QString "access-alice") (QString "garbage") 9%nat)
                           (initial ∅) in
  sample_verify "access-alice" "access-secret" = Some (Token.mk "alice" None)
  /\ sample_verify "garbage" "refresh-secret" = None
  /\ fst res = Upgraded "alice"
  /\ wsUsers (snd res) !! "alice" = Some (mkWsEntry 9%nat None).
Proof.
  intros res.
  destruct (X13_valid_access_credential_is_enough
              sample_defaults sample_verify "access-secret" "refresh-secret"
              "access-alice" "garbage" (Token.mk "alice" None) 9%nat (initial ∅))
    as (_ & H1 & H2); [discriminate|discriminate|reflexivity|].
  split; [reflexivity|]. split; [reflexivity|]. split; [exact H1|].
  apply H2. discriminate.
Defined.

(** bob wrote at time 1000; alice, not matched with him, answers at 2000. *)
Lemma X14_witness :
  let s := sample_run [PostMessage "bob" "alice" "hi" 1000] (initial sample_accounts) in
  let s' := snd (sample_handle (PostMessage "alice" "bob" "hello" 2000) s) in
  NoDup (map Message.createdAt (List.filter (between "alice" "bob") (messages s)))
  /\ (forall x, In x (messages s) -> between "alice" "bob" x = true ->
                Message.createdAt x < 2000)
  /\ has_match "alice" "bob" s = false
  /\ exists more,
       fst (sample_handle (GetMessages "bob" "alice" None) s')
       = MessagesPage [Message.mk "alice" "bob" "hello" 2000;
                       Message.mk "bob" "alice" "hi" 1000] more.
Proof.
  intros s s'.
  assert (Hnd : NoDup (map Message.createdAt
                         (List.filter (between "alice" "bob") (messages s)))).
  { vm_compute. apply NoDup_singleton. }
  assert (Hnew : forall x, In x (messages s) -> between "alice" "bob" x = true ->
                           Message.createdAt x < 2000).
  { intros x Hx _. vm_compute in Hx. destruct Hx as [<-|[]]. simpl. lia. }
  destruct (X14_a_sent_message_heads_the_newest_page
              sample_defaults sample_verify "access-secret" "refresh-secret"
              "alice" "bob" "hello" 2000 s Hnd Hnew)
    as (page & more0 & more1 & more2 & H0 & _ & H1 & _).
  split; [exact Hnd|]. split; [exact Hnew|]. split; [vm_compute; reflexivity|].
  exists more1. unfold s'. rewrite H1. f_equal. f_equal.
  vm_compute in H0. injection H0 as <- _. reflexivity.
Defined.

(** Two messages; the cursor of the only page is the timestamp of its last
    message. *)
Lemma X15_witness :
  let s := sample_run [PostMessage "bob" "alice" "hi" 1000;
                       PostMessage "alice" "bob" "hello" 2000] (initial sample_accounts) in
  let page1 := [Message.mk "alice" "bob" "hello" 2000; Message.mk "bob" "alice" "hi" 1000] in
  fst (sample_handle (GetMessages "alice" "bob" None) s) = MessagesPage page1 false
  /\ last page1 = Some (Message.mk "bob" "alice" "hi" 1000)
  /\ exists page2 more2,
       fst (sample_handle (GetMessages "alice" "bob" (Some 1000))
                          (snd (sample_handle (GetMessages "alice" "bob" None) s)))
       = MessagesPage page2 more2
       /\ forall m2, In m2 page2 -> Message.createdAt m2 < 1000.
Proof.
  intros s page1.
  assert (H1 : fst (sample_handle (GetMessages "alice" "bob" None) s)
               = MessagesPage page1 false) by (vm_compute; reflexivity).
  assert (Hl : last page1 = Some (Message.mk "bob" "alice" "hi" 1000)) by reflexivity.
  destruct (X15_pages_do_not_overlap
              sample_defaults sample_verify "access-secret" "refresh-secret"
              "alice" "bob" page1 false _ s H1 Hl)
    as (page2 & more2 & H2 & Hold & _); [discriminate|simpl; lia|].
  split; [exact H1|]. split; [exact Hl|]. exists page2, more2. split; [exact H2|exact Hold].
Defined.

(** After the two likes, and a refused third one, one row. *)
Lemma X16_witness :
  let s := sample_run [PostView None "alice" "bob" true;
                       PostView None "bob" "alice" true;
                       PostView None "alice" "bob" true] (initial sample_accounts) in
  sample_reachable s
  /\ length (pair_rows "bob" "alice" (matches s)) = 1%nat
  /\ (length (pair_rows "bob" "alice" (matches s)) <= 1)%nat.
Proof.
  intros s.
  assert (Hs : sample_reachable s) by (apply reachable_run; constructor).
  split; [exact Hs|]. split; [vm_compute; reflexivity|].
  exact (X16_one_row_per_pair
           sample_defaults sample_verify "access-secret" "refresh-secret"
           s "bob" "alice" Hs).
Defined.

(** bob is in alice's feed until she swipes. *)
Lemma X17_witness :
  let s := initial sample_accounts in
  let s' := snd (sample_handle (PostView None "alice" "bob" true) s) in
  In "bob" (feed_candidates (fun _ => true) "alice" s)
  /\ fst (sample_handle (PostView None "alice" "bob" true) s) = ViewJson false true
  /\ ~ In "bob" (feed_candidates (fun _ => true) "alice" s').
Proof.
  intros s s'.
  assert (Hin : In "bob" (feed_candidates (fun _ => true) "alice" s)).
  { apply (proj2 (feed_candidates_In (fun _ => true) "alice" s "bob")).
    split; [vm_compute; eauto|]. split; [reflexivity|].
    split; [discriminate|reflexivity]. }
  destruct (X17_feed_profiles_can_be_swiped_once
              sample_defaults sample_verify "access-secret" "refresh-secret"
              (fun _ => true) "alice" "bob" true s Hin) as (_ & _ & _ & H1 & H2 & _).
  split; [exact Hin|]. split; [exact H1|exact H2].
Defined.

(** bob's upgrade with his current refresh credential. *)
Lemma X19_witness :
  let r := WsUpgrade (QString "stale-access") (QString "refresh-bob-v3") 7%nat in
  let s := initial sample_accounts in
  connected "bob" s = false
  /\ connected "bob" (snd (sample_handle r s)) = true
  /\ fst (sample_handle r s) = Upgraded "bob".
Proof.
  intros r s.
  assert (Hoff : connected "bob" s = false) by (vm_compute; reflexivity).
  assert (Hon : connected "bob" (snd (sample_handle r s)) = true)
    by (vm_compute; reflexivity).
  destruct (X19_only_an_authenticated_upgrade_connects
              sample_defaults sample_verify "access-secret" "refresh-secret"
              r "bob" s Hoff Hon) as (a & rf & w & _ & _ & _ & _ & H & _).
  split; [exact Hoff|]. split; [exact Hon|exact H].
Defined.
